(** * Runtime parameter resolution of the AMP optimizer

    A shallow embedding of [packages/optimizer/lib/fetchRuntimeParameters.js]
    and the properties of its resolvers: precedence of the sources, cache
    hits, misses and stale hits, the fallbacks of the style download and the
    softening of failures by the orchestrator.

    The JavaScript code is asynchronous and effectful.  It is modelled in a
    state-and-exception monad over a [World] that holds the shared cache, the
    clock, the heap of parameter objects, the promises that were started but
    not awaited, and the trace of calls made to the outside (network, logger).
    The cache itself is part of the world, so its reads and writes show in
    the state and not in the trace.
    An [await] is sequencing; a call that is not awaited leaves a [Pending]
    task in the world. *)

From stdpp Require Import gmap strings list.
From Stdlib Require Import ZArith.

Local Open Scope string_scope.
Local Open Scope Z_scope.

(** ** JavaScript values *)

(** The values that flow through the module: parameters given by the caller,
    cache contents and results of the capabilities. *)
Inductive Value : Type :=
| VUndefined
| VNull
| VBool (b : bool)
| VString (s : string)
| VMaxAge (timestamp value : Z)           (* MaxAge#toJson() *)
| VRuntimeData (version maxAge : Value)   (* {version, maxAge} *)
| VRaw (json : string).                   (* validatorRules.raw *)

(** ToBoolean: what [if (x)], [!x] and [x || y] test. *)
Definition truthy (v : Value) : bool :=
  match v with
  | VUndefined | VNull => false
  | VBool b => b
  | VString s => negb (String.eqb s "")
  | VMaxAge _ _ | VRuntimeData _ _ | VRaw _ => true
  end.

(** [a || b] *)
Definition js_or (a b : Value) : Value := if truthy a then a else b.

(** ToString, as applied by [+] with a string operand and by [new URL(x)]. *)
Definition to_string (v : Value) : string :=
  match v with
  | VUndefined => "undefined"
  | VNull => "null"
  | VBool true => "true"
  | VBool false => "false"
  | VString s => s
  | VMaxAge _ _ | VRuntimeData _ _ | VRaw _ => "[object Object]"
  end.

(** Property reads [x.version] and [x.maxAge]; a value without the property
    reads as [undefined]. *)
Definition get_version (v : Value) : Value :=
  match v with VRuntimeData version _ => version | _ => VUndefined end.

Definition get_maxAge (v : Value) : Value :=
  match v with VRuntimeData _ maxAge => maxAge | _ => VUndefined end.

(** ** Errors and outcomes *)

Inductive Error : Type :=
| TypeError (msg : string)      (* raised by the language itself *)
| Failure (msg : string)        (* raised by a capability *)
| OutOfFuel.                    (* the model ran out of fuel; see [fetchAmpRuntimeStyles_fuel_enough] *)

Inductive Outcome (A : Type) : Type :=
| Ok (a : A)
| Throw (e : Error).
Arguments Ok {A} a.
Arguments Throw {A} e.


(** ** Constants *)

Definition KEY_VALIDATOR_RULES : string := "validator-rules".
Definition AMP_RUNTIME_MAX_AGE : Z := 10 * 60.

(** Modelled from the spec: [AmpConstants.js] is not part of the sources.
    The canonical CDN host, the fixed CSS path suffix and the composition of
    a host with a version follow section 6 of the specification and the
    comment above [runtimeCssUrl], which gives the default URL as
    [https://cdn.ampproject.org/rtv/${ampRuntimeVersion}/v0.css]. *)
Definition AMP_CACHE_HOST : string := "https://cdn.ampproject.org".
Definition AMP_RUNTIME_CSS_PATH : string := "/v0.css".
Definition appendRuntimeVersion (prefix version : Value) : string :=
  to_string prefix +:+ "/rtv/" +:+ to_string version.

(** ** MaxAge *)

(** Modelled from the spec: class [MaxAge] of [@ampproject/toolbox-core] is
    not part of the sources.  A stamp is a creation time and a duration, both
    in seconds; it is stale once [now > createdAt + duration].  Only the JSON
    form written by [toJson] can be read back.  *)
Module MaxAge.
Record t : Type := mk { timestamp : Z; value : Z }.

Definition create (now : Z) (maxAge : Z) : t :=
  {| timestamp := now; value := maxAge |}.

Definition toJson (m : t) : Value := VMaxAge (timestamp m) (value m).

Definition fromJson (v : Value) : Outcome t :=
  match v with
  | VMaxAge ts d => Ok (mk ts d)
  | _ => Throw (TypeError "MaxAge.fromJson")
  end.

Definition isExpired (m : t) (now : Z) : bool := timestamp m + value m <? now.
End MaxAge.

(** ** Structures *)

(** A parsed rule set; [raw] is its serializable form. *)
Record RuleSet : Type := mkRuleSet {
  raw : Value;
  tags : list string
}.

Record Response : Type := mkResponse {
  ok : bool;
  text : string
}.

(** Runtime parameters; an absent field reads as [undefined] ([None] for the
    rules). *)
Record RuntimeParameters : Type := mkParams {
  verbose : Value;
  lts : Value;
  rtv : Value;
  validatorRules : option RuleSet;
  ampUrlPrefix : Value;
  ampRuntimeVersion : Value;
  ampRuntimeStyles : Value
}.

Definition empty_object : RuntimeParameters :=
  mkParams VUndefined VUndefined VUndefined None VUndefined VUndefined VUndefined.

Definition set_verbose (v : Value) (p : RuntimeParameters) : RuntimeParameters :=
  mkParams v (lts p) (rtv p) (validatorRules p) (ampUrlPrefix p)
           (ampRuntimeVersion p) (ampRuntimeStyles p).
Definition set_lts (v : Value) (p : RuntimeParameters) : RuntimeParameters :=
  mkParams (verbose p) v (rtv p) (validatorRules p) (ampUrlPrefix p)
           (ampRuntimeVersion p) (ampRuntimeStyles p).
Definition set_rtv (v : Value) (p : RuntimeParameters) : RuntimeParameters :=
  mkParams (verbose p) (lts p) v (validatorRules p) (ampUrlPrefix p)
           (ampRuntimeVersion p) (ampRuntimeStyles p).
Definition set_validatorRules (r : RuleSet) (p : RuntimeParameters) : RuntimeParameters :=
  mkParams (verbose p) (lts p) (rtv p) (Some r) (ampUrlPrefix p)
           (ampRuntimeVersion p) (ampRuntimeStyles p).
Definition set_ampRuntimeVersion (v : Value) (p : RuntimeParameters) : RuntimeParameters :=
  mkParams (verbose p) (lts p) (rtv p) (validatorRules p) (ampUrlPrefix p)
           v (ampRuntimeStyles p).
Definition set_ampRuntimeStyles (v : Value) (p : RuntimeParameters) : RuntimeParameters :=
  mkParams (verbose p) (lts p) (rtv p) (validatorRules p) (ampUrlPrefix p)
           (ampRuntimeVersion p) v.

(** ** Trace of observable calls *)

Inductive Event : Type :=
| EFetch (url : string)                          (* config.fetch(url) *)
| ECurrentVersion (args : option (Value * Value))
    (* config.runtimeVersion.currentVersion({ampUrlPrefix, lts}) or () *)
| ERulesFetch (args : option Value)
    (* validatorRulesProvider.fetch() or fetch({rules}) *)
| ELogWarn (msg : string)
| ELogError (msg : string) (err : option Error)
| EConsoleLog (key : string) (data : Value)
| EUnhandledRejection (e : Error).

(** The configuration object.  Its capabilities answer from the arguments and
    from the history of the calls made so far, so that a capability may
    answer differently from one call to the next. *)
Record Config : Type := mkConfig {
  cfg_verbose : Value;
  cfg_lts : Value;
  cfg_rtv : Value;
  cfg_validatorRules : option RuleSet;
  cfg_ampRuntimeVersion : Value;
  cfg_fetch : list Event -> string -> Outcome Response;
  cfg_currentVersion : list Event -> option (Value * Value) -> Outcome Value
}.

(** What a function receives in its [config] parameter.  The language does
    not check it: [fetchAmpRuntimeStyles_] calls itself with a string there. *)
Inductive ConfigArg : Type :=
| CfgObject (c : Config)
| CfgString (s : string).

(** ** The world *)

Definition loc := nat.

(** A promise that was started and not awaited: the refresh of a version
    record, suspended at its [await] with the outcome it will resume on. *)
Record Pending : Type := mkPending {
  pending_key : string;
  pending_outcome : Outcome Value
}.

Record World : Type := mkWorld {
  cache : gmap string Value;       (* contents of the FileSystemCache *)
  unreadable : gset string;        (* keys whose entry cannot be read *)
  now : Z;                         (* the clock, in seconds *)
  heap : gmap loc RuntimeParameters;
  pending : list Pending;
  trace : list Event               (* oldest first *)
}.

Definition M (A : Type) : Type := World -> Outcome A * World.

Definition ret {A} (a : A) : M A := fun w => (Ok a, w).

Definition throw {A} (e : Error) : M A := fun w => (Throw e, w).

Definition bind {A B} (m : M A) (k : A -> M B) : M B :=
  fun w =>
    match m w with
    | (Ok a, w') => k a w'
    | (Throw e, w') => (Throw e, w')
    end.

(** [try { m } catch (error) { h error }] *)
Definition try_catch {A} (m : M A) (h : Error -> M A) : M A :=
  fun w =>
    match m w with
    | (Ok a, w') => (Ok a, w')
    | (Throw e, w') => h e w'
    end.

Notation "'let*' x ':=' c1 'in' c2" := (bind c1 (fun x => c2))
  (at level 10, x pattern, c1 at level 100, c2 at level 200).

Definition emit (e : Event) : M unit :=
  fun w => (Ok tt, mkWorld (cache w) (unreadable w) (now w) (heap w)
                           (pending w) (trace w ++ [e])).

Definition clock : M Z := fun w => (Ok (now w), w).

Definition with_cache (c : gmap string Value) (w : World) : World :=
  mkWorld c (unreadable w) (now w) (heap w) (pending w) (trace w).

Definition with_heap (h : gmap loc RuntimeParameters) (w : World) : World :=
  mkWorld (cache w) (unreadable w) (now w) h (pending w) (trace w).

Definition with_pending (p : list Pending) (w : World) : World :=
  mkWorld (cache w) (unreadable w) (now w) (heap w) p (trace w).

(** ** The cache capability *)

(** Modelled from the spec: the cache is a [FileSystemCache] of
    [@ampproject/toolbox-core], which is not part of the sources.  By section
    6 of the specification [get(key)] gives the stored value or [undefined];
    by section 7 an entry that cannot be read is not told apart from an
    absent one and is never fatal.  So [await cache.get(key)] never fails:
    it gives the stored value, and [undefined] when there is none or when it
    cannot be read. *)
Definition cache_get (key : string) : M Value :=
  fun w =>
    if decide (key ∈ unreadable w) then (Ok VUndefined, w)
    else (Ok (default VUndefined (cache w !! key)), w).

(** Modelled from the spec: [set(key, value)] of the same cache, which by
    section 6 gives nothing back and need not be awaited.  The value is taken
    to be in the cache as soon as the call is made; a key that cannot be
    read stays so. *)
Definition cache_set (key : string) (v : Value) : M unit :=
  fun w => (Ok tt, with_cache (<[key := v]> (cache w)) w).

(** ** The capabilities of the configuration *)

(** A string has none of the properties [log], [fetch] and [runtimeVersion]:
    reading one gives [undefined], and using that raises a TypeError. *)

Definition log_warn (config : ConfigArg) (msg : string) : M unit :=
  match config with
  | CfgObject _ => emit (ELogWarn msg)
  | CfgString _ => throw (TypeError "config.log is undefined")
  end.

Definition log_error (config : ConfigArg) (msg : string) (err : option Error) : M unit :=
  match config with
  | CfgObject _ => emit (ELogError msg err)
  | CfgString _ => throw (TypeError "config.log is undefined")
  end.

Definition call_fetch (config : ConfigArg) (url : string) : M Response :=
  match config with
  | CfgObject c =>
      fun w =>
        let (_, w') := emit (EFetch url) w in
        match cfg_fetch c (trace w) url with
        | Ok r => (Ok r, w')
        | Throw e => (Throw e, w')
        end
  | CfgString _ => throw (TypeError "config.fetch is not a function")
  end.

Definition call_currentVersion (config : ConfigArg) (args : option (Value * Value))
  : M Value :=
  match config with
  | CfgObject c =>
      fun w =>
        let (_, w') := emit (ECurrentVersion args) w in
        match cfg_currentVersion c (trace w) args with
        | Ok v => (Ok v, w')
        | Throw e => (Throw e, w')
        end
  | CfgString _ => throw (TypeError "config.runtimeVersion is undefined")
  end.

(** ** The heap of parameter objects *)

(** Parameter objects are passed by reference.  An address at which the heap
    holds nothing stands for an argument that is no object. *)

(** [Object.assign({}, source)]: a new object with the fields of [source];
    a source that is not an object contributes nothing. *)
Definition object_assign_new (source : loc) : M loc :=
  fun w =>
    let l := fresh (dom (heap w)) in
    (Ok l, with_heap (<[l := default empty_object (heap w !! source)]> (heap w)) w).

(** [object.field], raising a TypeError when there is no object. *)
Definition read_object (l : loc) : M RuntimeParameters :=
  fun w =>
    match heap w !! l with
    | Some p => (Ok p, w)
    | None => (Throw (TypeError "cannot read properties of undefined"), w)
    end.

(** [object.field = v] *)
Definition update_object (l : loc) (f : RuntimeParameters -> RuntimeParameters)
  : M unit :=
  fun w =>
    match heap w !! l with
    | Some p => (Ok tt, with_heap (<[l := f p]> (heap w)) w)
    | None => (Throw (TypeError "cannot set properties of undefined"), w)
    end.

(** ** The module *)

Section Resolvers.

(** [new URL(s)] succeeds: the URL parser of the platform. *)
Variable url_parses : string -> bool.

(** [validatorRulesProvider.fetch], the rule provider the module imports;
    like the capabilities of the configuration it answers from its argument
    and the history. *)
Variable rulesProvider : list Event -> option Value -> Outcome RuleSet.

Definition call_rulesProvider (args : option Value) : M RuleSet :=
  fun w =>
    let (_, w') := emit (ERulesFetch args) w in
    match rulesProvider (trace w) args with
    | Ok r => (Ok r, w')
    | Throw e => (Throw e, w')
    end.

Definition _isAbsoluteUrl (url : Value) : bool := url_parses (to_string url).

Definition fetchValidatorRules_ : M RuleSet :=
  let* rawRules := cache_get "validator-rules" in
  if negb (truthy rawRules) then
    let* validatorRules := call_rulesProvider None in
    let* _ := cache_set KEY_VALIDATOR_RULES (raw validatorRules) in
    ret validatorRules
  else
    call_rulesProvider (Some rawRules).

(** [fetchLatestRuntimeData_] runs up to its [await]: the version source
    is called, and the promise it returns settles with this outcome.  A
    failure inside an async function, even a TypeError, only rejects its
    promise. *)
Definition fetchLatestRuntimeData_call (config : ConfigArg)
    (ampUrlPrefix lts : Value) : M (Outcome Value) :=
  fun w =>
    let (o, w') := call_currentVersion config (Some (ampUrlPrefix, lts)) w in
    (Ok o, w').

(** [fetchLatestRuntimeData_] after its [await]: the record is stamped
    with the clock of that moment, logged and stored. *)
Definition fetchLatestRuntimeData_resume (versionKey : string)
    (o : Outcome Value) : M Value :=
  let* version := (fun w => (o, w)) in
  let* t := clock in
  let ampRuntimeData :=
    VRuntimeData version (MaxAge.toJson (MaxAge.create t AMP_RUNTIME_MAX_AGE)) in
  let* _ := emit (EConsoleLog versionKey ampRuntimeData) in
  let* _ := cache_set versionKey ampRuntimeData in
  ret ampRuntimeData.

(** [await fetchLatestRuntimeData_(versionKey, context)] *)
Definition fetchLatestRuntimeData_ (versionKey : string) (config : ConfigArg)
    (ampUrlPrefix lts : Value) : M Value :=
  let* o := fetchLatestRuntimeData_call config ampUrlPrefix lts in
  fetchLatestRuntimeData_resume versionKey o.

(** [fetchLatestRuntimeData_(versionKey, context)] without [await]: the
    call part runs, the rest stays pending and the caller goes on. *)
Definition fetchLatestRuntimeData_background (versionKey : string)
    (config : ConfigArg) (ampUrlPrefix lts : Value) : M unit :=
  let* o := fetchLatestRuntimeData_call config ampUrlPrefix lts in
  fun w => (Ok tt, with_pending (pending w ++ [mkPending versionKey o]) w).

Definition fetchAmpRuntimeVersion_ (config : ConfigArg)
    (ampUrlPrefix lts : Value) : M Value :=
  let versionKey := to_string ampUrlPrefix +:+ "-" +:+ to_string lts in
  let* ampRuntimeData := cache_get versionKey in
  let* ampRuntimeData :=
    if negb (truthy ampRuntimeData) then
      fetchLatestRuntimeData_ versionKey config ampUrlPrefix lts
    else
      let* maxAge := (fun w => (MaxAge.fromJson (get_maxAge ampRuntimeData), w)) in
      let* t := clock in
      if MaxAge.isExpired maxAge t then
        let* _ := fetchLatestRuntimeData_background versionKey config ampUrlPrefix lts in
        ret ampRuntimeData
      else ret ampRuntimeData in
  ret (get_version ampRuntimeData).

Definition downloadAmpRuntimeStyles_ (config : ConfigArg) (runtimeCssUrl : string)
  : M Value :=
  let* styles := cache_get runtimeCssUrl in
  if negb (truthy styles) then
    let* response := call_fetch config runtimeCssUrl in
    if negb (ok response) then ret VNull
    else
      let styles := VString (text response) in
      let* _ := cache_set runtimeCssUrl styles in
      ret styles
  else ret styles.

Definition WARN_RELATIVE_PREFIX : string :=
  "AMP runtime styles cannot be fetched from relative ampUrlPrefix, please use the 'ampRuntimeStyles' parameter to provide the correct runtime style.".

(** The function calls itself; [fuel] bounds the depth of these calls.
    The inner call passes two arguments, so that [config] receives the
    host, [ampUrlPrefix] the version, and [ampRuntimeVersion] nothing. *)
Fixpoint fetchAmpRuntimeStyles_fuel (fuel : nat) (config : ConfigArg)
    (ampUrlPrefix ampRuntimeVersion : Value) : M Value :=
  match fuel with
  | O => throw OutOfFuel
  | S fuel' =>
      let* reassigned :=
        if truthy ampUrlPrefix && negb (_isAbsoluteUrl ampUrlPrefix) then
          let* _ := log_warn config WARN_RELATIVE_PREFIX in
          let* v :=
            if truthy ampRuntimeVersion then ret ampRuntimeVersion
            else call_currentVersion config None in
          ret (VString AMP_CACHE_HOST, v)
        else ret (ampUrlPrefix, ampRuntimeVersion) in
      let ampUrlPrefix := fst reassigned in
      let ampRuntimeVersion := snd reassigned in
      let runtimeCssUrl :=
        appendRuntimeVersion (js_or ampUrlPrefix (VString AMP_CACHE_HOST))
                             ampRuntimeVersion +:+ AMP_RUNTIME_CSS_PATH in
      let* styles := downloadAmpRuntimeStyles_ config runtimeCssUrl in
      if negb (truthy styles) then
        let* _ := log_error config ("Could not download " +:+ runtimeCssUrl) None in
        if truthy (js_or ampUrlPrefix ampRuntimeVersion) then
          let* latest := call_currentVersion config None in
          fetchAmpRuntimeStyles_fuel fuel' (CfgString AMP_CACHE_HOST) latest VUndefined
        else ret (VString "")
      else ret styles
  end.

(** Two levels are all the function ever uses ([fetchAmpRuntimeStyles_fuel_enough]). *)
Definition fetchAmpRuntimeStyles_ : ConfigArg -> Value -> Value -> M Value :=
  fetchAmpRuntimeStyles_fuel 2.

Definition fetchRuntimeParameters (config : Config)
    (customRuntimeParameters : loc) : M loc :=
  let cfg := CfgObject config in
  let* runtimeParameters := object_assign_new customRuntimeParameters in
  let* custom := read_object customRuntimeParameters in
  let* _ := update_object runtimeParameters
    (set_verbose (js_or (js_or (verbose custom) (cfg_verbose config)) (VBool false))) in
  let* custom := read_object customRuntimeParameters in
  let* _ := update_object runtimeParameters
    (set_lts (js_or (js_or (lts custom) (cfg_lts config)) (VBool false))) in
  let* custom := read_object customRuntimeParameters in
  let* _ := update_object runtimeParameters
    (set_rtv (js_or (js_or (rtv custom) (cfg_rtv config)) (VBool false))) in
  let* _ :=
    try_catch
      (let* r :=
         match cfg_validatorRules config with
         | Some r => ret r
         | None => fetchValidatorRules_
         end in
       update_object runtimeParameters (set_validatorRules r))
      (fun error => log_error cfg "Could not fetch validator rules" (Some error)) in
  (* let {ampUrlPrefix, ampRuntimeVersion, ampRuntimeStyles, lts} = runtimeParameters;
     the locals are primed, the plain names being the fields *)
  let* rp := read_object runtimeParameters in
  let ampUrlPrefix' := ampUrlPrefix rp in
  let ampRuntimeVersion' := ampRuntimeVersion rp in
  let ampRuntimeStyles' := ampRuntimeStyles rp in
  let lts' := lts rp in
  let* _ :=
    try_catch
      (let* v :=
         if truthy ampRuntimeVersion' then ret ampRuntimeVersion'
         else fetchAmpRuntimeVersion_ cfg ampUrlPrefix' lts' in
       update_object runtimeParameters (set_ampRuntimeVersion v))
      (fun error =>
         log_error cfg "Could not fetch latest AMP runtime version" (Some error)) in
  let* _ :=
    try_catch
      (let* s :=
         if truthy ampRuntimeStyles' then ret ampRuntimeStyles'
         else
           let* rp := read_object runtimeParameters in
           fetchAmpRuntimeStyles_ cfg ampUrlPrefix' (ampRuntimeVersion rp) in
       update_object runtimeParameters (set_ampRuntimeStyles s))
      (fun error => log_error cfg "Could not fetch AMP runtime CSS" (Some error)) in
  ret runtimeParameters.

(** The event loop settles the promises that nobody awaited: each pending
    refresh resumes; a rejection has no handler and is only reported. *)
Definition settle (p : Pending) : M unit :=
  try_catch
    (let* _ := fetchLatestRuntimeData_resume (pending_key p) (pending_outcome p) in
     ret tt)
    (fun e => emit (EUnhandledRejection e)).

Fixpoint settle_all (ps : list Pending) : M unit :=
  match ps with
  | [] => ret tt
  | p :: ps' => let* _ := settle p in settle_all ps'
  end.

Definition run_pending : M unit :=
  fun w => settle_all (pending w) (with_pending [] w).

End Resolvers.

(** * Derived notions *)

(** ** Observations on traces *)

Definition is_version_call (e : Event) : bool :=
  match e with ECurrentVersion _ => true | _ => false end.

(** Number of calls made to the version source. *)
Definition version_calls (t : list Event) : nat :=
  length (List.filter is_version_call t).

Definition is_network_call (e : Event) : bool :=
  match e with
  | EFetch _ | ECurrentVersion _ | ERulesFetch _ => true
  | _ => false
  end.

(** Number of calls made to the network capabilities. *)
Definition network_calls (t : list Event) : nat :=
  length (List.filter is_network_call t).

Arguments version_calls : simpl never.
Arguments network_calls : simpl never.

Definition with_now (t : Z) (w : World) : World :=
  mkWorld (cache w) (unreadable w) t (heap w) (pending w) (trace w).

Definition with_trace (t : list Event) (w : World) : World :=
  mkWorld (cache w) (unreadable w) (now w) (heap w) (pending w) t.

(** ** Keys, URLs and steps of the resolvers *)

Definition versionKey (ampUrlPrefix lts : Value) : string :=
  to_string ampUrlPrefix +:+ "-" +:+ to_string lts.

(** The URL a call downloads from once its prefix is settled. *)
Definition runtimeCssUrl (ampUrlPrefix ampRuntimeVersion : Value) : string :=
  appendRuntimeVersion (js_or ampUrlPrefix (VString AMP_CACHE_HOST))
                       ampRuntimeVersion +:+ AMP_RUNTIME_CSS_PATH.

(** The fallback step of [fetchAmpRuntimeStyles_], entered when the
    download gave a falsy result: log, then retry or give up. *)
Definition fallback (url_parses : string -> bool) (config : ConfigArg)
    (ampUrlPrefix ampRuntimeVersion : Value) : M Value :=
  let* _ := log_error config
    ("Could not download " +:+ runtimeCssUrl ampUrlPrefix ampRuntimeVersion) None in
  if truthy (js_or ampUrlPrefix ampRuntimeVersion) then
    let* latest := call_currentVersion config None in
    fetchAmpRuntimeStyles_fuel url_parses 1 (CfgString AMP_CACHE_HOST)
      latest VUndefined
  else ret (VString "").

(** The steps the function takes when the prefix is relative, up to the
    replacement: the warning, and the version taken from the current-version
    path unless one was given. *)
Definition replace_prefix (config : ConfigArg) (ampRuntimeVersion : Value)
  : M Value :=
  let* _ := log_warn config WARN_RELATIVE_PREFIX in
  if truthy ampRuntimeVersion then ret ampRuntimeVersion
  else call_currentVersion config None.

(** ** Frames *)

(** A resolver reads and writes the cache, starts refreshes and calls the
    outside; it never touches the heap and only appends to the trace. *)
Definition extends (w w' : World) : Prop :=
  heap w' = heap w /\ exists t, trace w' = (trace w ++ t)%list.

Definition stable {A} (m : M A) : Prop := forall w, extends w (snd (m w)).

(** A computation that writes to no object but [l], and keeps [l]. *)
Definition writes_only {A} (l : loc) (m : M A) : Prop :=
  forall w,
    (forall l', l' ≠ l -> heap (snd (m w)) !! l' = heap w !! l') /\
    (is_Some (heap w !! l) -> is_Some (heap (snd (m w)) !! l)).

(** A computation whose only result is [l]. *)
Definition returns {A} (l : A) (m : M A) : Prop :=
  forall w a, fst (m w) = Ok a -> a = l.

(** ** The run of the orchestrator *)

(** The field assigned from the outcome of a sub-resolution: set on success,
    left as it is on failure. *)
Definition apply_outcome {A} (f : A -> RuntimeParameters -> RuntimeParameters)
    (o : Outcome A) (rp : RuntimeParameters) : RuntimeParameters :=
  match o with Ok a => f a rp | Throw _ => rp end.

(** The world after a sub-resolution: its failure, if any, is logged. *)
Definition log_failure {A} (msg : string) (r : Outcome A * World) : World :=
  match r with
  | (Ok _, w) => w
  | (Throw e, w) => with_trace (trace w ++ [ELogError msg (Some e)]) w
  end.

Section Run.

Variable url_parses : string -> bool.
Variable rulesProvider : list Event -> option Value -> Outcome RuleSet.
Variable config : Config.

(** The three sub-resolutions, as the [try] blocks evaluate them. *)
Definition rules_attempt : M RuleSet :=
  match cfg_validatorRules config with
  | Some r => ret r
  | None => fetchValidatorRules_ rulesProvider
  end.

Definition version_attempt (rp : RuntimeParameters) : M Value :=
  if truthy (ampRuntimeVersion rp) then ret (ampRuntimeVersion rp)
  else fetchAmpRuntimeVersion_ (CfgObject config) (ampUrlPrefix rp) (lts rp).

Definition styles_attempt (rp : RuntimeParameters) (resolvedVersion : Value)
  : M Value :=
  if truthy (ampRuntimeStyles rp) then ret (ampRuntimeStyles rp)
  else fetchAmpRuntimeStyles_ url_parses (CfgObject config)
         (ampUrlPrefix rp) resolvedVersion.

(** The copy of the caller's parameters with the three flags settled. *)
Definition init_flags (p : RuntimeParameters) : RuntimeParameters :=
  set_rtv (js_or (js_or (rtv p) (cfg_rtv config)) (VBool false))
    (set_lts (js_or (js_or (lts p) (cfg_lts config)) (VBool false))
       (set_verbose (js_or (js_or (verbose p) (cfg_verbose config)) (VBool false)) p)).

Definition MSG_RULES : string := "Could not fetch validator rules".
Definition MSG_VERSION : string := "Could not fetch latest AMP runtime version".
Definition MSG_STYLES : string := "Could not fetch AMP runtime CSS".

(** The run of [fetchRuntimeParameters] on the parameters [p], from the
    world [w]: the address of the new object, then for each sub-resolution
    the world it starts in, its outcome, and the object after it. *)
Definition new_object (w : World) : loc := fresh (dom (heap w)).

Definition world_at_rules (p : RuntimeParameters) (w : World) : World :=
  with_heap (<[new_object w := init_flags p]> (heap w)) w.

Definition rules_outcome p w : Outcome RuleSet * World :=
  rules_attempt (world_at_rules p w).

Definition object_after_rules p w : RuntimeParameters :=
  apply_outcome set_validatorRules (fst (rules_outcome p w)) (init_flags p).

Definition world_at_version p w : World :=
  with_heap (<[new_object w := object_after_rules p w]> (heap w))
            (log_failure MSG_RULES (rules_outcome p w)).

Definition version_outcome p w : Outcome Value * World :=
  version_attempt (object_after_rules p w) (world_at_version p w).

Definition object_after_version p w : RuntimeParameters :=
  apply_outcome set_ampRuntimeVersion (fst (version_outcome p w))
                (object_after_rules p w).

Definition world_at_styles p w : World :=
  with_heap (<[new_object w := object_after_version p w]> (heap w))
            (log_failure MSG_VERSION (version_outcome p w)).

Definition styles_outcome p w : Outcome Value * World :=
  styles_attempt (object_after_rules p w)
                 (ampRuntimeVersion (object_after_version p w))
                 (world_at_styles p w).

Definition object_at_return p w : RuntimeParameters :=
  apply_outcome set_ampRuntimeStyles (fst (styles_outcome p w))
                (object_after_version p w).

Definition world_at_return p w : World :=
  with_heap (<[new_object w := object_at_return p w]> (heap w))
            (log_failure MSG_STYLES (styles_outcome p w)).

End Run.

(** The configuration with another runtime version. *)
Definition with_cfg_ampRuntimeVersion (v : Value) (c : Config) : Config :=
  mkConfig (cfg_verbose c) (cfg_lts c) (cfg_rtv c) (cfg_validatorRules c) v
           (cfg_fetch c) (cfg_currentVersion c).

(** ** Samples used to run the model *)

(** A stand-in for the URL parser on the few strings the examples use:
    [new URL(s)] accepts a string that starts with a scheme and rejects a
    bare version or a phrase. *)
Definition sample_url_parses (s : string) : bool :=
  String.prefix "https://" s || String.prefix "http://" s.

Definition sample_rules : RuleSet :=
  mkRuleSet (VRaw "{tags: []}") ["html"; "head"; "body"].

(** A rule provider that serves [sample_rules], parsing them again from the
    raw form when it is given one. *)
Definition sample_provider (_ : list Event) (args : option Value) : Outcome RuleSet :=
  match args with
  | None => Ok sample_rules
  | Some r => Ok (mkRuleSet r ["html"; "head"; "body"])
  end.

Definition failing_provider (_ : list Event) (_ : option Value) : Outcome RuleSet :=
  Throw (Failure "validator rules unavailable").

(** An empty cache at time 1000, one empty parameter object at address 0. *)
Definition sample_world : World :=
  mkWorld ∅ ∅ 1000 {[ 0%nat := empty_object ]} [] [].

(** A CDN that serves the CSS of version 002, the latest one, and nothing
    else. *)
Definition sample_config : Config :=
  mkConfig VUndefined VUndefined VUndefined None VUndefined
    (fun _ url =>
       if String.eqb url "https://cdn.ampproject.org/rtv/002/v0.css"
       then Ok (mkResponse true "body{}")
       else Ok (mkResponse false ""))
    (fun _ _ => Ok (VString "002")).

(** A record written at time 0 and read at time 1000: stale. *)
Definition stale_world : World :=
  mkWorld {[ "-false" := VRuntimeData (VString "001") (VMaxAge 0 600) ]} ∅ 1000
          {[ 0%nat := empty_object ]} [] [].

(** A mirror that does not serve version 001. *)
Definition mirror : Value := VString "https://example.com".

(** A CDN that answers every download with success and an empty body. *)
Definition empty_body_config : Config :=
  mkConfig VUndefined VUndefined VUndefined None VUndefined
    (fun _ _ => Ok (mkResponse true ""))
    (fun _ _ => Ok (VString "002")).

(** A network that is down: no download succeeds and the version source has
    no version to give. *)
Definition offline_config : Config :=
  mkConfig VUndefined VUndefined VUndefined None VUndefined
    (fun _ _ => Ok (mkResponse false ""))
    (fun _ _ => Ok (VString "")).

(** A caller that brings its own rule set, in a world whose cache is empty. *)
Definition world_with_rules : World :=
  mkWorld ∅ ∅ 1000 {[ 0%nat := set_validatorRules sample_rules empty_object ]} [] [].

(** A configuration that names version 001 while the latest one is 002. *)
Definition config_with_version : Config :=
  with_cfg_ampRuntimeVersion (VString "001") sample_config.


(** ** Further observations, for the properties beyond the claims *)

Definition is_fetch_call (e : Event) : bool :=
  match e with EFetch _ => true | _ => false end.

(** Number of downloads asked from [config.fetch]. *)
Definition fetch_calls (t : list Event) : nat :=
  length (List.filter is_fetch_call t).

Definition is_rules_call (e : Event) : bool :=
  match e with ERulesFetch _ => true | _ => false end.

(** Number of calls made to the rule provider. *)
Definition rules_calls (t : list Event) : nat :=
  length (List.filter is_rules_call t).

Arguments fetch_calls : simpl never.
Arguments rules_calls : simpl never.

(** A computation that adds at most [n] entries satisfying [f] to the trace. *)
Definition calls_le {A} (f : Event -> bool) (n : nat) (m : M A) : Prop :=
  forall w,
    (length (List.filter f (trace (snd (m w)))) <=
     length (List.filter f (trace w)) + n)%nat.

(** A computation that removes no entry from the cache. *)
Definition keeps_cache {A} (m : M A) : Prop :=
  forall w, dom (cache w) ⊆ dom (cache (snd (m w))).

(** A version record written at time 900 for ten minutes, read at time 1000. *)
Definition fresh_world : World :=
  mkWorld {[ "-false" := VRuntimeData (VString "001") (VMaxAge 900 600) ]} ∅ 1000
          {[ 0%nat := empty_object ]} [] [].

(** A version source that is down. *)
Definition failing_version_config : Config :=
  mkConfig VUndefined VUndefined VUndefined None VUndefined
    (fun _ _ => Ok (mkResponse false ""))
    (fun _ _ => Throw (Failure "version source unavailable")).

(** A rule provider whose rule sets have no raw form. *)
Definition rawless_provider (_ : list Event) (_ : option Value) : Outcome RuleSet :=
  Ok (mkRuleSet VUndefined ["html"]).

(** A configuration that is verbose and brings its own rule set; its
    network is down. *)
Definition config_with_rules : Config :=
  mkConfig (VBool true) VUndefined VUndefined (Some sample_rules) VUndefined
    (fun _ _ => Ok (mkResponse false ""))
    (fun _ _ => Throw (Failure "version source unavailable")).

Definition caller_rules : RuleSet := mkRuleSet (VRaw "{}") ["caller"].

(** A caller that asks for lts and gives rules, version and styles. *)
Definition given_world : World :=
  mkWorld ∅ ∅ 1000
    {[ 0%nat := mkParams VUndefined (VBool true) VUndefined (Some caller_rules)
                  VUndefined (VString "001") (VString "a{}") ]} [] [].

(** * Properties *)

Lemma version_calls_app (t1 t2 : list Event) :
  version_calls (t1 ++ t2) = (version_calls t1 + version_calls t2)%nat.
Proof. unfold version_calls. by rewrite List.filter_app, length_app. Qed.

Lemma network_calls_app (t1 t2 : list Event) :
  network_calls (t1 ++ t2) = (network_calls t1 + network_calls t2)%nat.
Proof. unfold network_calls. by rewrite List.filter_app, length_app. Qed.

(** Two computations that start alike and continue alike are the same. *)
Lemma bind_ext {A B} (m : M A) (k1 k2 : A -> M B) (w : World) :
  (forall a w', k1 a w' = k2 a w') -> bind m k1 w = bind m k2 w.
Proof. intros H. unfold bind. destruct (m w) as [[a|e] w']; [apply H|reflexivity]. Qed.

Lemma bind_assoc {A B C} (m : M A) (f : A -> M B) (g : B -> M C) (w : World) :
  bind (bind m f) g w = bind m (fun a => bind (f a) g) w.
Proof. unfold bind. by destruct (m w) as [[a|e] w']. Qed.

Lemma bind_ret_l {A B} (a : A) (k : A -> M B) (w : World) :
  bind (ret a) k w = k a w.
Proof. reflexivity. Qed.

(** Unfolding of the monad and of the primitive operations. *)
Ltac unfold_monad :=
  unfold bind, ret, throw, try_catch, emit, clock, cache_get, cache_set,
    with_cache, with_heap, with_pending, with_now, with_trace in *.

Section RuleResolver.

Variable rulesProvider : list Event -> option Value -> Outcome RuleSet.

(** C9. [fetchValidatorRules_] works on the single key ["validator-rules"].
    On a miss it calls the rule provider without argument, stores the raw
    form of the rule set it got under that key and returns the rule set.
    On a hit it calls the rule provider with the cached raw form and
    returns what the provider rebuilt, leaving the cache as it is.  The
    entry never expires: the clock has no influence on the result. *)
Theorem fetchValidatorRules_miss_and_hit (w : World) :
  KEY_VALIDATOR_RULES ∉ unreadable w ->
  (truthy (default VUndefined (cache w !! KEY_VALIDATOR_RULES)) = false ->
   forall r, rulesProvider (trace w) None = Ok r ->
     fetchValidatorRules_ rulesProvider w =
       (Ok r,
        mkWorld (<[KEY_VALIDATOR_RULES := raw r]> (cache w)) (unreadable w)
                (now w) (heap w) (pending w) (trace w ++ [ERulesFetch None])))
  /\
  (forall rawRules,
     cache w !! KEY_VALIDATOR_RULES = Some rawRules ->
     truthy rawRules = true ->
     fetchValidatorRules_ rulesProvider w =
       (rulesProvider (trace w) (Some rawRules),
        with_trace (trace w ++ [ERulesFetch (Some rawRules)]) w))
  /\
  (forall t,
     fst (fetchValidatorRules_ rulesProvider (with_now t w)) =
     fst (fetchValidatorRules_ rulesProvider w)).
Proof.
  intros Hread. unfold fetchValidatorRules_, call_rulesProvider, KEY_VALIDATOR_RULES in *.
  split; [| split].
  - intros Hmiss r Hr. unfold_monad.
    destruct (decide _) as [?|_]; [done|]. cbn.
    rewrite Hmiss. cbn. by rewrite Hr.
  - intros rawRules Hhit Htruthy. unfold_monad.
    destruct (decide _) as [?|_]; [done|]. cbn.
    rewrite Hhit. cbn. rewrite Htruthy. cbn.
    by destruct (rulesProvider _ _).
  - intros t. unfold_monad. cbn.
    destruct (decide _) as [?|_]; [done|]. cbn.
    destruct (truthy _); cbn.
    + by destruct (rulesProvider _ _).
    + by destruct (rulesProvider _ _).
Qed.

End RuleResolver.

(** The rule resolver on an empty cache and on the cache it has filled. *)
Lemma fetchValidatorRules_miss_and_hit_witness :
  (KEY_VALIDATOR_RULES ∉ unreadable sample_world) /\
  fst (fetchValidatorRules_ sample_provider sample_world) = Ok sample_rules /\
  fst (fetchValidatorRules_ sample_provider
         (snd (fetchValidatorRules_ sample_provider sample_world))) = Ok sample_rules.
Proof.
  assert (Hread : KEY_VALIDATOR_RULES ∉ unreadable sample_world)
    by apply not_elem_of_empty.
  split; [exact Hread|].
  destruct (fetchValidatorRules_miss_and_hit sample_provider sample_world Hread)
    as (Hmiss & _ & _).
  split.
  - rewrite (Hmiss eq_refl sample_rules eq_refl). reflexivity.
  - vm_compute. reflexivity.
Defined.

(** ** The version resolver *)

(** C5. On a miss for the key [ampUrlPrefix + '-' + lts] the version resolver
    calls the version source exactly once, stores under that key the record
    of the fetched version with a stamp that runs out 600 seconds after the
    current time, and returns the fetched version. *)
Theorem fetchAmpRuntimeVersion_miss (config : Config) (ampUrlPrefix lts v : Value)
    (w : World) :
  let key := versionKey ampUrlPrefix lts in
  key ∉ unreadable w ->
  truthy (default VUndefined (cache w !! key)) = false ->
  cfg_currentVersion config (trace w) (Some (ampUrlPrefix, lts)) = Ok v ->
  exists w',
    fetchAmpRuntimeVersion_ (CfgObject config) ampUrlPrefix lts w = (Ok v, w') /\
    version_calls (trace w') = S (version_calls (trace w)) /\
    List.In (ECurrentVersion (Some (ampUrlPrefix, lts))) (trace w') /\
    cache w' =
      <[key := VRuntimeData v (MaxAge.toJson (MaxAge.create (now w) AMP_RUNTIME_MAX_AGE))]>
        (cache w) /\
    (forall t, MaxAge.isExpired (MaxAge.create (now w) AMP_RUNTIME_MAX_AGE) t
               = (now w + 600 <? t)) /\
    pending w' = pending w.
Proof.
  intros key Hread Hmiss Hv. subst key.
  unfold fetchAmpRuntimeVersion_, fetchLatestRuntimeData_,
    fetchLatestRuntimeData_call, fetchLatestRuntimeData_resume,
    call_currentVersion, versionKey in *.
  unfold_monad.
  destruct (decide _) as [?|_]; [done|].
  rewrite Hmiss. cbn. rewrite Hv. cbn.
  eexists. split; [reflexivity|]. cbn.
  repeat split.
  - rewrite !version_calls_app. unfold version_calls. cbn. lia.
  - rewrite <- List.app_assoc. apply List.in_or_app. right. by left.
Qed.

(** A cold cache, no prefix, no lts: one call, version 002. *)
Lemma fetchAmpRuntimeVersion_miss_witness :
  exists w',
    fetchAmpRuntimeVersion_ (CfgObject sample_config) (VString "") (VBool false)
      sample_world = (Ok (VString "002"), w') /\
    version_calls (trace w') = 1%nat /\
    cache w' !! "-false" = Some (VRuntimeData (VString "002") (VMaxAge 1000 600)).
Proof.
  destruct (fetchAmpRuntimeVersion_miss sample_config (VString "") (VBool false)
              (VString "002") sample_world)
    as (w' & Hrun & Hcalls & _ & Hcache & _).
  - apply not_elem_of_empty.
  - reflexivity.
  - reflexivity.
  - exists w'. split; [exact Hrun|]. split; [exact Hcalls|].
    rewrite Hcache. apply lookup_insert_eq.
Defined.

(** C4. On a stale hit the version resolver returns the cached version; it
    calls the version source once and leaves the refresh pending instead of
    waiting for it, so the cache still holds the old record when the caller
    gets its result.  The result is the same whatever the version source
    answers; when the pending refresh is settled later, its success stores
    the new record and its failure changes nothing and reaches no caller. *)
Theorem fetchAmpRuntimeVersion_stale (config : Config)
    (ampUrlPrefix lts cached : Value) (createdAt : Z) (w : World) :
  let key := versionKey ampUrlPrefix lts in
  let refresh := cfg_currentVersion config (trace w) (Some (ampUrlPrefix, lts)) in
  key ∉ unreadable w ->
  cache w !! key =
    Some (VRuntimeData cached (MaxAge.toJson (MaxAge.create createdAt AMP_RUNTIME_MAX_AGE))) ->
  now w > createdAt + 600 ->
  exists w',
    fetchAmpRuntimeVersion_ (CfgObject config) ampUrlPrefix lts w = (Ok cached, w') /\
    version_calls (trace w') = S (version_calls (trace w)) /\
    cache w' = cache w /\
    pending w' = (pending w ++ [mkPending key refresh])%list /\
    (forall t,
       exists w'',
         settle (mkPending key refresh) (with_now t w') = (Ok tt, w'') /\
         version_calls (trace w'') = version_calls (trace w') /\
         match refresh with
         | Ok latest =>
             cache w'' = <[key := VRuntimeData latest (VMaxAge t 600)]> (cache w)
         | Throw e =>
             cache w'' = cache w /\
             trace w'' = (trace w' ++ [EUnhandledRejection e])%list
         end).
Proof.
  intros key refresh Hread Hhit Hstale. subst key.
  assert (Hrefresh :
    cfg_currentVersion config (trace w) (Some (ampUrlPrefix, lts)) = refresh)
    by reflexivity.
  clearbody refresh.
  exists (mkWorld (cache w) (unreadable w) (now w) (heap w)
            (pending w ++ [mkPending (versionKey ampUrlPrefix lts) refresh])
            (trace w ++ [ECurrentVersion (Some (ampUrlPrefix, lts))])).
  unfold fetchAmpRuntimeVersion_, fetchLatestRuntimeData_background,
    fetchLatestRuntimeData_call, call_currentVersion, versionKey in *.
  unfold_monad.
  destruct (decide _) as [?|_]; [done|].
  rewrite Hhit. cbn.
  assert (Hexp : MaxAge.isExpired (MaxAge.mk createdAt AMP_RUNTIME_MAX_AGE) (now w) = true).
  { unfold MaxAge.isExpired, AMP_RUNTIME_MAX_AGE. cbn. apply Z.ltb_lt. lia. }
  rewrite Hexp, Hrefresh.
  split.
  { destruct refresh; reflexivity. }
  cbn. split; [rewrite version_calls_app; unfold version_calls; cbn; lia|].
  split; [reflexivity|]. split; [reflexivity|].
  intros t. unfold settle, fetchLatestRuntimeData_resume. unfold_monad. cbn.
  destruct refresh as [latest|e]; cbn.
  - eexists. split; [reflexivity|]. cbn. split; [|reflexivity].
    rewrite !version_calls_app. unfold version_calls. cbn. lia.
  - eexists. split; [reflexivity|]. cbn. split; [|split; reflexivity].
    rewrite !version_calls_app. unfold version_calls. cbn. lia.
Qed.

Lemma fetchAmpRuntimeVersion_stale_witness :
  exists w',
    fetchAmpRuntimeVersion_ (CfgObject sample_config) (VString "") (VBool false)
      stale_world = (Ok (VString "001"), w') /\
    version_calls (trace w') = 1%nat /\
    cache w' = cache stale_world.
Proof.
  destruct (fetchAmpRuntimeVersion_stale sample_config (VString "") (VBool false)
              (VString "001") 0 stale_world)
    as (w' & Hrun & Hcalls & Hcache & _).
  - apply not_elem_of_empty.
  - reflexivity.
  - reflexivity.
  - exists w'. split; [exact Hrun|]. split; [exact Hcalls|exact Hcache].
Defined.

(** ** The style resolver *)

Section StyleResolver.

Variable url_parses : string -> bool.

(** With a string in the place of the configuration, the function either
    fails or returns a cached text; it never reaches its own inner call. *)
Lemma fetchAmpRuntimeStyles_fuel_string (n : nat) (s : string)
    (ampUrlPrefix ampRuntimeVersion : Value) (w : World) :
  fetchAmpRuntimeStyles_fuel url_parses (S n) (CfgString s)
    ampUrlPrefix ampRuntimeVersion w =
  fetchAmpRuntimeStyles_fuel url_parses 1 (CfgString s)
    ampUrlPrefix ampRuntimeVersion w.
Proof.
  cbn [fetchAmpRuntimeStyles_fuel].
  unfold downloadAmpRuntimeStyles_, log_warn, log_error, call_fetch,
    call_currentVersion.
  unfold_monad.
  destruct (truthy ampUrlPrefix && negb (_isAbsoluteUrl url_parses ampUrlPrefix));
    cbn; [reflexivity|].
  destruct (decide _); cbn; [reflexivity|].
  destruct (truthy (default VUndefined _)) eqn:E; cbn; [|reflexivity].
  by rewrite E.
Qed.



(** A call whose prefix needs no replacement downloads, and enters the
    fallback exactly when the download result is falsy. *)
Lemma fetchAmpRuntimeStyles_valid_prefix (config : ConfigArg)
    (ampUrlPrefix ampRuntimeVersion : Value) (w : World) :
  truthy ampUrlPrefix && negb (_isAbsoluteUrl url_parses ampUrlPrefix) = false ->
  fetchAmpRuntimeStyles_ url_parses config ampUrlPrefix ampRuntimeVersion w =
  (let* styles :=
     downloadAmpRuntimeStyles_ config (runtimeCssUrl ampUrlPrefix ampRuntimeVersion) in
   if negb (truthy styles) then fallback url_parses config ampUrlPrefix ampRuntimeVersion
   else ret styles) w.
Proof.
  intros Hvalid. unfold fetchAmpRuntimeStyles_.
  change (fetchAmpRuntimeStyles_fuel url_parses 2) with
    (fetchAmpRuntimeStyles_fuel url_parses (S 1)).
  cbn [fetchAmpRuntimeStyles_fuel]. rewrite Hvalid.
  reflexivity.
Qed.

(** The inner call made by the fallback fails as soon as the latest
    version is a plain version string: the version sits in the place of the
    prefix and the host in the place of the configuration, whose logger is
    then asked for. *)
Lemma fetchAmpRuntimeStyles_inner_call_fails (s : string) (latest : Value)
    (w : World) :
  truthy latest = true ->
  _isAbsoluteUrl url_parses latest = false ->
  fetchAmpRuntimeStyles_fuel url_parses 1 (CfgString s) latest VUndefined w =
  (Throw (TypeError "config.log is undefined"), w).
Proof.
  intros Ht Hrel. cbn [fetchAmpRuntimeStyles_fuel].
  rewrite Ht, Hrel. reflexivity.
Qed.

End StyleResolver.

(** C2. The retry of [fetchAmpRuntimeStyles_] is lost.  The mirror fails for
    version 001 and the canonical host serves the CSS of the latest version
    002, yet the call does not return that CSS: the inner call receives the
    host as its configuration and the version as its prefix, and fails with
    a TypeError.  Asked directly, the canonical host answers. *)
Example fetchAmpRuntimeStyles_retry_rejects :
  fetchAmpRuntimeStyles_ sample_url_parses (CfgObject sample_config)
    mirror (VString "001") sample_world =
  (Throw (TypeError "config.log is undefined"),
   with_trace [EFetch "https://example.com/rtv/001/v0.css";
               ELogError "Could not download https://example.com/rtv/001/v0.css" None;
               ECurrentVersion None] sample_world)
  /\
  fst (fetchAmpRuntimeStyles_ sample_url_parses (CfgObject sample_config)
         (VString AMP_CACHE_HOST) (VString "002") sample_world)
  = Ok (VString "body{}").
Proof. split; vm_compute; reflexivity. Qed.

(** C3, as stated, fails: an empty body downloaded with success makes
    [fetchAmpRuntimeStyles_] enter its fallback.  The error is logged, the
    latest version is asked for and the retry is made, so the result is not
    the empty string. *)
Lemma empty_body_enters_fallback :
  let r := fetchAmpRuntimeStyles_ sample_url_parses (CfgObject empty_body_config)
             VUndefined (VString "001") sample_world in
  cfg_fetch empty_body_config [] "https://cdn.ampproject.org/rtv/001/v0.css"
    = Ok (mkResponse true "") /\
  fst r <> Ok (VString "") /\
  trace (snd r) =
    [EFetch "https://cdn.ampproject.org/rtv/001/v0.css";
     ELogError "Could not download https://cdn.ampproject.org/rtv/001/v0.css" None;
     ECurrentVersion None] /\
  cache (snd r) !! "https://cdn.ampproject.org/rtv/001/v0.css" = Some (VString "").
Proof.
  cbn zeta. split; [reflexivity|]. split; [|split].
  - vm_compute. discriminate.
  - vm_compute. reflexivity.
  - vm_compute. reflexivity.
Qed.

(** C3, amended.  On a miss, [downloadAmpRuntimeStyles_] gives [null] exactly
    when the response is not ok; the body of an ok response is cached and
    returned, the empty one too.  [fetchAmpRuntimeStyles_] does not tell the
    two apart: it tests the result for falsiness, so after an ok download of
    an empty body it enters the fallback like after a failed one, and gives
    the empty string when neither prefix nor version was provided. *)
Theorem download_no_content_signal (url_parses : string -> bool) (config : Config)
    (ampUrlPrefix ampRuntimeVersion : Value) (response : Response) (w : World) :
  let url := runtimeCssUrl ampUrlPrefix ampRuntimeVersion in
  let fetched := with_trace (trace w ++ [EFetch url]) w in
  truthy ampUrlPrefix && negb (_isAbsoluteUrl url_parses ampUrlPrefix) = false ->
  url ∉ unreadable w ->
  truthy (default VUndefined (cache w !! url)) = false ->
  cfg_fetch config (trace w) url = Ok response ->
  downloadAmpRuntimeStyles_ (CfgObject config) url w =
    (if ok response
     then (Ok (VString (text response)),
           with_cache (<[url := VString (text response)]> (cache w)) fetched)
     else (Ok VNull, fetched))
  /\
  (fst (downloadAmpRuntimeStyles_ (CfgObject config) url w) = Ok VNull
   <-> ok response = false)
  /\
  (ok response = true -> text response = "" ->
   fetchAmpRuntimeStyles_ url_parses (CfgObject config) ampUrlPrefix ampRuntimeVersion w =
     fallback url_parses (CfgObject config) ampUrlPrefix ampRuntimeVersion
       (with_cache (<[url := VString ""]> (cache w)) fetched))
  /\
  (ok response = true -> text response = "" ->
   truthy (js_or ampUrlPrefix ampRuntimeVersion) = false ->
   fst (fetchAmpRuntimeStyles_ url_parses (CfgObject config)
          ampUrlPrefix ampRuntimeVersion w) = Ok (VString "")).
Proof.
  intros url fetched Hvalid Hread Hmiss Hfetch.
  assert (Hdl : downloadAmpRuntimeStyles_ (CfgObject config) url w =
    (if ok response
     then (Ok (VString (text response)),
           with_cache (<[url := VString (text response)]> (cache w)) fetched)
     else (Ok VNull, fetched))).
  { unfold downloadAmpRuntimeStyles_, call_fetch. unfold_monad.
    destruct (decide _) as [?|_]; [done|].
    rewrite Hmiss. cbn. rewrite Hfetch. by destruct (ok response). }
  split; [exact Hdl|]. split; [|split].
  - rewrite Hdl. destruct (ok response); cbn; split; congruence.
  - intros Hok Hempty.
    rewrite fetchAmpRuntimeStyles_valid_prefix by exact Hvalid.
    unfold bind at 1. fold url. rewrite Hdl, Hok, Hempty. reflexivity.
  - intros Hok Hempty Hnone.
    rewrite fetchAmpRuntimeStyles_valid_prefix by exact Hvalid.
    unfold bind at 1. fold url. rewrite Hdl, Hok, Hempty. cbn.
    unfold fallback, log_error. unfold_monad. by rewrite Hnone.
Qed.

Lemma download_no_content_signal_witness :
  fst (fetchAmpRuntimeStyles_ sample_url_parses (CfgObject empty_body_config)
         VUndefined VUndefined sample_world) = Ok (VString "").
Proof.
  destruct (download_no_content_signal sample_url_parses empty_body_config
              VUndefined VUndefined (mkResponse true "") sample_world)
    as (_ & _ & _ & Hempty).
  - reflexivity.
  - apply not_elem_of_empty.
  - reflexivity.
  - reflexivity.
  - apply Hempty; reflexivity.
Defined.

(** ** Replacement of a relative prefix *)

(** C8, as stated, fails: after the replacement the function does not go on
    as for an unset prefix.  With the network down and no version, a call
    with an unset prefix ends in the empty string, whereas the call with the
    relative prefix counts the substituted host as a given prefix, retries
    and fails. *)
Lemma relative_prefix_differs_from_unset :
  fst (fetchAmpRuntimeStyles_ sample_url_parses (CfgObject offline_config)
         (VString "not a url") VUndefined sample_world)
  = Throw (TypeError "config.fetch is not a function")
  /\
  fst ((let* v := replace_prefix (CfgObject offline_config) VUndefined in
        fetchAmpRuntimeStyles_ sample_url_parses (CfgObject offline_config)
          VUndefined v) sample_world)
  = Ok (VString "").
Proof. split; vm_compute; reflexivity. Qed.

(** C8, amended.  For a prefix that is set and does not parse as an absolute
    URL, [fetchAmpRuntimeStyles_] logs the warning, takes the version from
    the current-version path when none was given, and goes on as if it had
    been called with the canonical host as its prefix.  This is the same as
    a call with an unset prefix whenever the version is not empty; with an
    empty version the two differ in the fallback only, where the substituted
    host counts as a given prefix. *)
Theorem fetchAmpRuntimeStyles_relative_prefix (url_parses : string -> bool)
    (config : Config) (ampUrlPrefix ampRuntimeVersion : Value) (w : World) :
  url_parses AMP_CACHE_HOST = true ->
  truthy ampUrlPrefix = true ->
  _isAbsoluteUrl url_parses ampUrlPrefix = false ->
  fetchAmpRuntimeStyles_ url_parses (CfgObject config) ampUrlPrefix ampRuntimeVersion w =
    (let* v := replace_prefix (CfgObject config) ampRuntimeVersion in
     fetchAmpRuntimeStyles_ url_parses (CfgObject config) (VString AMP_CACHE_HOST) v) w
  /\
  (exists t, trace (snd (replace_prefix (CfgObject config) ampRuntimeVersion w)) =
             (trace w ++ ELogWarn WARN_RELATIVE_PREFIX :: t)%list)
  /\
  (forall v w',
     truthy v = true ->
     fetchAmpRuntimeStyles_ url_parses (CfgObject config) (VString AMP_CACHE_HOST) v w' =
     fetchAmpRuntimeStyles_ url_parses (CfgObject config) VUndefined v w')
.
Proof.
  intros Hhost Hset Hrel.
  assert (Hvalid : truthy (VString AMP_CACHE_HOST) &&
                   negb (_isAbsoluteUrl url_parses (VString AMP_CACHE_HOST)) = false).
  { unfold _isAbsoluteUrl. cbn [to_string]. by rewrite Hhost. }
  split; [|split].
  - unfold fetchAmpRuntimeStyles_ at 1.
    change (fetchAmpRuntimeStyles_fuel url_parses 2) with
      (fetchAmpRuntimeStyles_fuel url_parses (S 1)).
    cbn [fetchAmpRuntimeStyles_fuel]. rewrite Hset, Hrel. cbn [andb negb].
    unfold replace_prefix. rewrite !bind_assoc.
    apply bind_ext; intros _ w1.
    rewrite bind_assoc.
    apply bind_ext; intros v w2.
    rewrite bind_ret_l.
    rewrite fetchAmpRuntimeStyles_valid_prefix by exact Hvalid.
    reflexivity.
  - unfold replace_prefix, log_warn, call_currentVersion. unfold_monad.
    destruct (truthy ampRuntimeVersion); cbn.
    + by exists [].
    + destruct (cfg_currentVersion _ _ _); cbn;
        rewrite <- List.app_assoc; by eexists.
  - intros v w' Hv.
    rewrite !fetchAmpRuntimeStyles_valid_prefix by (exact Hvalid || reflexivity).
    unfold runtimeCssUrl, fallback, runtimeCssUrl, js_or. cbn [truthy].
    rewrite Hv. reflexivity.
Qed.

Lemma fetchAmpRuntimeStyles_relative_prefix_witness :
  fetchAmpRuntimeStyles_ sample_url_parses (CfgObject sample_config)
    (VString "not a url") VUndefined sample_world =
  (let* v := replace_prefix (CfgObject sample_config) VUndefined in
   fetchAmpRuntimeStyles_ sample_url_parses (CfgObject sample_config)
     (VString AMP_CACHE_HOST) v) sample_world.
Proof.
  destruct (fetchAmpRuntimeStyles_relative_prefix sample_url_parses sample_config
              (VString "not a url") VUndefined sample_world) as (Hrun & _).
  - reflexivity.
  - reflexivity.
  - reflexivity.
  - exact Hrun.
Defined.

(** ** What the resolvers leave alone *)

Lemma extends_refl (w : World) : extends w w.
Proof. split; [reflexivity|]. exists []. by rewrite List.app_nil_r. Qed.

Lemma extends_trans (w1 w2 w3 : World) :
  extends w1 w2 -> extends w2 w3 -> extends w1 w3.
Proof.
  intros [Hh1 [t1 Ht1]] [Hh2 [t2 Ht2]]. split; [congruence|].
  exists (t1 ++ t2)%list. by rewrite Ht2, Ht1, List.app_assoc.
Qed.

Lemma extends_in (w w' : World) (e : Event) :
  extends w w' -> List.In e (trace w) -> List.In e (trace w').
Proof. intros [_ [t ->]] Hin. apply List.in_or_app. by left. Qed.

Lemma stable_ret {A} (a : A) : stable (ret a).
Proof. intros w. apply extends_refl. Qed.

Lemma stable_throw {A} (e : Error) : stable (@throw A e).
Proof. intros w. apply extends_refl. Qed.

Lemma stable_emit (e : Event) : stable (emit e).
Proof. intros w. split; [reflexivity|]. by exists [e]. Qed.

Lemma stable_bind {A B} (m : M A) (k : A -> M B) :
  stable m -> (forall a, stable (k a)) -> stable (bind m k).
Proof.
  intros Hm Hk w. unfold bind. specialize (Hm w).
  destruct (m w) as [[a|e] w1]; cbn in *; [|exact Hm].
  eapply extends_trans; [exact Hm|apply Hk].
Qed.

Lemma stable_try_catch {A} (m : M A) (h : Error -> M A) :
  stable m -> (forall e, stable (h e)) -> stable (try_catch m h).
Proof.
  intros Hm Hh w. unfold try_catch. specialize (Hm w).
  destruct (m w) as [[a|e] w1]; cbn in *; [exact Hm|].
  eapply extends_trans; [exact Hm|apply Hh].
Qed.

Lemma stable_outcome {A} (o : Outcome A) : stable (fun w => (o, w)).
Proof. intros w. apply extends_refl. Qed.

Lemma stable_clock : stable clock.
Proof. intros w. apply extends_refl. Qed.

Lemma stable_cache_get (key : string) : stable (cache_get key).
Proof. intros w. unfold cache_get. destruct (decide _); apply extends_refl. Qed.

Lemma stable_cache_set (key : string) (v : Value) : stable (cache_set key v).
Proof. intros w. split; [reflexivity|]. exists []. cbn. by rewrite List.app_nil_r. Qed.

Lemma stable_log_warn (config : ConfigArg) (msg : string) :
  stable (log_warn config msg).
Proof. destruct config; [apply stable_emit|apply stable_throw]. Qed.

Lemma stable_log_error (config : ConfigArg) (msg : string) (err : option Error) :
  stable (log_error config msg err).
Proof. destruct config; [apply stable_emit|apply stable_throw]. Qed.

Lemma stable_call_fetch (config : ConfigArg) (url : string) :
  stable (call_fetch config url).
Proof.
  destruct config as [c|s]; [|apply stable_throw].
  intros w. cbn. destruct (cfg_fetch c (trace w) url);
    (split; [reflexivity|by exists [EFetch url]]).
Qed.

Lemma stable_call_currentVersion (config : ConfigArg) (args : option (Value * Value)) :
  stable (call_currentVersion config args).
Proof.
  destruct config as [c|s]; [|apply stable_throw].
  intros w. cbn. destruct (cfg_currentVersion c (trace w) args);
    (split; [reflexivity|by exists [ECurrentVersion args]]).
Qed.

Lemma stable_call_rulesProvider rulesProvider (args : option Value) :
  stable (call_rulesProvider rulesProvider args).
Proof.
  intros w. unfold call_rulesProvider. cbn.
  destruct (rulesProvider (trace w) args);
    (split; [reflexivity|by exists [ERulesFetch args]]).
Qed.

Create HintDb stable discriminated.
#[export] Hint Resolve stable_ret stable_throw stable_emit stable_clock
  stable_cache_get stable_cache_set stable_log_warn stable_log_error
  stable_call_fetch stable_call_currentVersion stable_call_rulesProvider
  stable_outcome : stable.

(** Splits a computation along its binds and branches. *)
Ltac stable_step :=
  match goal with
  | |- stable (bind _ _) => apply stable_bind; [|intros ?]
  | |- stable (try_catch _ _) => apply stable_try_catch; [|intros ?]
  | |- stable (if ?b then _ else _) => destruct b
  | |- stable (match ?o with Some _ => _ | None => _ end) => destruct o
  | |- stable _ => solve [auto with stable]
  end.

Lemma stable_fetchValidatorRules_ rulesProvider :
  stable (fetchValidatorRules_ rulesProvider).
Proof. unfold fetchValidatorRules_. repeat stable_step. Qed.

Lemma stable_fetchLatestRuntimeData_call config ampUrlPrefix lts :
  stable (fetchLatestRuntimeData_call config ampUrlPrefix lts).
Proof.
  intros w. unfold fetchLatestRuntimeData_call.
  pose proof (stable_call_currentVersion config (Some (ampUrlPrefix, lts)) w) as H.
  by destruct (call_currentVersion _ _ w).
Qed.

Lemma stable_enqueue (p : Pending) :
  stable (fun w => (Ok tt, with_pending (pending w ++ [p]) w)).
Proof. intros w. split; [reflexivity|]. exists []. cbn. by rewrite List.app_nil_r. Qed.

#[export] Hint Resolve stable_fetchLatestRuntimeData_call stable_enqueue : stable.

Lemma stable_fetchAmpRuntimeVersion_ config ampUrlPrefix lts :
  stable (fetchAmpRuntimeVersion_ config ampUrlPrefix lts).
Proof.
  unfold fetchAmpRuntimeVersion_, fetchLatestRuntimeData_,
    fetchLatestRuntimeData_background, fetchLatestRuntimeData_resume.
  repeat stable_step.
Qed.

Lemma stable_downloadAmpRuntimeStyles_ config url :
  stable (downloadAmpRuntimeStyles_ config url).
Proof. unfold downloadAmpRuntimeStyles_. repeat stable_step. Qed.

#[export] Hint Resolve stable_downloadAmpRuntimeStyles_ : stable.

Lemma stable_fetchAmpRuntimeStyles_fuel url_parses fuel :
  forall config ampUrlPrefix ampRuntimeVersion,
    stable (fetchAmpRuntimeStyles_fuel url_parses fuel config
              ampUrlPrefix ampRuntimeVersion).
Proof.
  induction fuel as [|fuel IH]; intros config ampUrlPrefix ampRuntimeVersion.
  - apply stable_throw.
  - cbn [fetchAmpRuntimeStyles_fuel]. repeat stable_step.
Qed.

Lemma stable_fetchAmpRuntimeStyles_ url_parses config ampUrlPrefix ampRuntimeVersion :
  stable (fetchAmpRuntimeStyles_ url_parses config ampUrlPrefix ampRuntimeVersion).
Proof. apply stable_fetchAmpRuntimeStyles_fuel. Qed.

(** ** The orchestrator *)

Lemma read_object_at (l : loc) (p : RuntimeParameters) (w : World) :
  heap w !! l = Some p -> read_object l w = (Ok p, w).
Proof. intros H. unfold read_object. by rewrite H. Qed.

Lemma update_object_at (l : loc) (p : RuntimeParameters)
    (f : RuntimeParameters -> RuntimeParameters) (w : World) :
  heap w !! l = Some p ->
  update_object l f w = (Ok tt, with_heap (<[l := f p]> (heap w)) w).
Proof. intros H. unfold update_object. by rewrite H. Qed.

Lemma with_heap_twice (h1 h2 : gmap loc RuntimeParameters) (w : World) :
  with_heap h2 (with_heap h1 w) = with_heap h2 w.
Proof. reflexivity. Qed.

(** One [try { field = attempt } catch (error) { log }] block, run in a
    world whose object [l] is [rp]. *)
Lemma soften_step {A} (m : M A) (f : A -> RuntimeParameters -> RuntimeParameters)
    (config : Config) (msg : string) (l : loc) (rp : RuntimeParameters)
    (h : gmap loc RuntimeParameters) (w : World) :
  heap (snd (m w)) = heap w ->
  heap w = <[l := rp]> h ->
  try_catch (let* a := m in update_object l (f a))
            (fun error => log_error (CfgObject config) msg (Some error)) w
  = (Ok tt, with_heap (<[l := apply_outcome f (fst (m w)) rp]> h)
                      (log_failure msg (m w))).
Proof.
  intros Hstable Hheap. unfold try_catch, bind.
  destruct (m w) as [[a|e] w1]; cbn in *.
  - rewrite (update_object_at l rp) by (rewrite Hstable, Hheap; apply lookup_insert_eq).
    unfold with_heap. by rewrite Hstable, Hheap, insert_insert_eq.
  - unfold with_heap, with_trace, emit. cbn. by rewrite <- Hheap, <- Hstable.
Qed.

Section Orchestrator.

Variable url_parses : string -> bool.
Variable rulesProvider : list Event -> option Value -> Outcome RuleSet.
Variable config : Config.

Lemma stable_rules_attempt : stable (rules_attempt rulesProvider config).
Proof.
  unfold rules_attempt. destruct (cfg_validatorRules config);
    [apply stable_ret|apply stable_fetchValidatorRules_].
Qed.

Lemma stable_version_attempt rp : stable (version_attempt config rp).
Proof.
  unfold version_attempt. destruct (truthy _);
    [apply stable_ret|apply stable_fetchAmpRuntimeVersion_].
Qed.

Lemma stable_styles_attempt rp v :
  stable (styles_attempt url_parses config rp v).
Proof.
  unfold styles_attempt. destruct (truthy _);
    [apply stable_ret|apply stable_fetchAmpRuntimeStyles_].
Qed.

Lemma new_object_fresh (w : World) : heap w !! new_object w = None.
Proof.
  unfold new_object. pose proof (is_fresh (dom (heap w))) as H.
  by apply not_elem_of_dom.
Qed.

Lemma heap_log_failure {A} (msg : string) (m : M A) (w : World) :
  stable m -> heap (log_failure msg (m w)) = heap w.
Proof.
  intros Hm. destruct (Hm w) as [Hh _]. unfold log_failure.
  by destruct (m w) as [[a|e] w1].
Qed.

(** [fetchRuntimeParameters] runs the three sub-resolutions one after the
    other, each from the world the one before left, and returns the new
    object. *)
Lemma fetchRuntimeParameters_run (custom : loc) (p : RuntimeParameters)
    (w : World) :
  heap w !! custom = Some p ->
  fetchRuntimeParameters url_parses rulesProvider config custom w =
    (Ok (new_object w), world_at_return url_parses rulesProvider config p w).
Proof.
  intros Hcustom.
  pose proof (new_object_fresh w) as Hfresh.
  assert (Hne : new_object w ≠ custom) by congruence.
  set (l := new_object w) in *.
  unfold fetchRuntimeParameters.
  unfold bind at 1. unfold object_assign_new. fold (new_object w). fold l.
  rewrite Hcustom. cbn [default].
  (* verbose *)
  unfold bind at 1.
  rewrite (read_object_at custom p) by (cbn; by rewrite lookup_insert_ne).
  unfold bind at 1.
  rewrite (update_object_at l p) by (cbn; apply lookup_insert_eq).
  cbn [heap with_heap]. rewrite insert_insert_eq.
  (* lts *)
  unfold bind at 1.
  rewrite (read_object_at custom p) by (cbn; by rewrite lookup_insert_ne).
  unfold bind at 1.
  rewrite (update_object_at l _) by (cbn; apply lookup_insert_eq).
  cbn [heap with_heap]. rewrite insert_insert_eq.
  (* rtv *)
  unfold bind at 1.
  rewrite (read_object_at custom p) by (cbn; by rewrite lookup_insert_ne).
  unfold bind at 1.
  rewrite (update_object_at l _) by (cbn; apply lookup_insert_eq).
  cbn [heap with_heap]. rewrite insert_insert_eq.
  rewrite !with_heap_twice.
  change (with_heap _ w) with (world_at_rules config p w).
  (* validator rules *)
  unfold bind at 1.
  fold (rules_attempt rulesProvider config).
  rewrite (soften_step (rules_attempt rulesProvider config) set_validatorRules config _ l
             (init_flags config p) (heap w))
    by (apply stable_rules_attempt || reflexivity).
  fold (rules_outcome rulesProvider config p w).
  fold (object_after_rules rulesProvider config p w).
  fold MSG_RULES.
  change (with_heap _ (log_failure MSG_RULES _)) with (world_at_version rulesProvider config p w).
  assert (Hh2 : heap (world_at_version rulesProvider config p w) = <[l := object_after_rules rulesProvider config p w]> (heap w))
    by reflexivity.
  unfold bind at 1.
  rewrite (read_object_at l (object_after_rules rulesProvider config p w))
    by (rewrite Hh2; apply lookup_insert_eq).
  (* runtime version *)
  unfold bind at 1.
  fold (version_attempt config (object_after_rules rulesProvider config p w)).
  rewrite (soften_step (version_attempt config (object_after_rules rulesProvider config p w))
             set_ampRuntimeVersion config _ l (object_after_rules rulesProvider config p w) (heap w))
    by (apply stable_version_attempt || exact Hh2).
  fold (version_outcome rulesProvider config p w).
  fold (object_after_version rulesProvider config p w).
  fold MSG_VERSION.
  change (with_heap _ (log_failure MSG_VERSION _)) with (world_at_styles rulesProvider config p w).
  assert (Hh3 : heap (world_at_styles rulesProvider config p w) = <[l := object_after_version rulesProvider config p w]> (heap w))
    by reflexivity.
  (* runtime styles *)
  unfold bind at 1.
  set (attempt := if truthy (ampRuntimeStyles (object_after_rules rulesProvider config p w)) then _ else _).
  assert (Hattempt : attempt (world_at_styles rulesProvider config p w) =
                    styles_outcome url_parses rulesProvider config p w).
  { subst attempt. unfold styles_outcome, styles_attempt.
    destruct (truthy _); [reflexivity|].
    unfold bind.
    by rewrite (read_object_at l (object_after_version rulesProvider config p w))
      by (rewrite Hh3; apply lookup_insert_eq). }
  rewrite (soften_step attempt set_ampRuntimeStyles config _ l
             (object_after_version rulesProvider config p w) (heap w)).
  - rewrite Hattempt. reflexivity.
  - rewrite Hattempt. apply stable_styles_attempt.
  - exact Hh3.
Qed.

End Orchestrator.

(** *** Fields and traces along the run *)

Lemma trace_log_failure_extends {A} (msg : string) (m : M A) (w : World) :
  stable m -> exists t, trace (log_failure msg (m w)) = (trace w ++ t)%list.
Proof.
  intros Hm. destruct (Hm w) as [_ [t Ht]]. unfold log_failure.
  destruct (m w) as [[a|e] w1]; cbn in *.
  - by exists t.
  - exists (t ++ [ELogError msg (Some e)])%list. by rewrite Ht, List.app_assoc.
Qed.

Lemma trace_log_failure_in {A} (msg : string) (r : Outcome A * World) (e : Error) :
  fst r = Throw e -> List.In (ELogError msg (Some e)) (trace (log_failure msg r)).
Proof.
  destruct r as [[a|e'] w1]; cbn; [discriminate|]. intros [= ->].
  apply List.in_or_app. right. by left.
Qed.

Section RunFacts.

Variable url_parses : string -> bool.
Variable rulesProvider : list Event -> option Value -> Outcome RuleSet.
Variable config : Config.
Variable p : RuntimeParameters.
Variable w : World.

Local Abbreviation at_rules := (world_at_rules config p w).
Local Abbreviation at_version := (world_at_version rulesProvider config p w).
Local Abbreviation at_styles := (world_at_styles rulesProvider config p w).
Local Abbreviation at_return := (world_at_return url_parses rulesProvider config p w).

Lemma trace_at_styles :
  exists t, trace at_styles = (trace at_version ++ t)%list.
Proof.
  unfold world_at_styles, version_outcome. cbn [trace with_heap].
  apply (trace_log_failure_extends MSG_VERSION
           (version_attempt config (object_after_rules rulesProvider config p w))
           at_version).
  apply stable_version_attempt.
Qed.

Lemma trace_at_return :
  exists t, trace at_return = (trace at_styles ++ t)%list.
Proof.
  unfold world_at_return, styles_outcome. cbn [trace with_heap].
  apply (trace_log_failure_extends MSG_STYLES
           (styles_attempt url_parses config _ _) at_styles).
  apply stable_styles_attempt.
Qed.

Lemma in_trace_version_return (e : Event) :
  List.In e (trace at_version) -> List.In e (trace at_return).
Proof.
  intros Hin. destruct trace_at_styles as [t1 H1]. destruct trace_at_return as [t2 H2].
  rewrite H2, H1. apply List.in_or_app. left. apply List.in_or_app. by left.
Qed.

Lemma in_trace_styles_return (e : Event) :
  List.In e (trace at_styles) -> List.In e (trace at_return).
Proof.
  intros Hin. destruct trace_at_return as [t2 H2].
  rewrite H2. apply List.in_or_app. by left.
Qed.

Lemma heap_at_return :
  heap at_return =
  <[new_object w := object_at_return url_parses rulesProvider config p w]> (heap w).
Proof. reflexivity. Qed.

Lemma validatorRules_at_return :
  validatorRules (object_at_return url_parses rulesProvider config p w) =
  match fst (rules_outcome rulesProvider config p w) with
  | Ok r => Some r
  | Throw _ => validatorRules p
  end.
Proof.
  unfold object_at_return, object_after_version, object_after_rules.
  destruct (fst (styles_outcome _ _ _ _ _)), (fst (version_outcome _ _ _ _)),
    (fst (rules_outcome _ _ _ _)); reflexivity.
Qed.

Lemma ampRuntimeVersion_at_return :
  ampRuntimeVersion (object_at_return url_parses rulesProvider config p w) =
  match fst (version_outcome rulesProvider config p w) with
  | Ok v => v
  | Throw _ => ampRuntimeVersion p
  end.
Proof.
  unfold object_at_return, object_after_version, object_after_rules.
  destruct (fst (styles_outcome _ _ _ _ _)), (fst (version_outcome _ _ _ _)),
    (fst (rules_outcome _ _ _ _)); reflexivity.
Qed.

Lemma ampRuntimeStyles_at_return :
  ampRuntimeStyles (object_at_return url_parses rulesProvider config p w) =
  match fst (styles_outcome url_parses rulesProvider config p w) with
  | Ok s => s
  | Throw _ => ampRuntimeStyles p
  end.
Proof.
  unfold object_at_return, object_after_version, object_after_rules.
  destruct (fst (styles_outcome _ _ _ _ _)), (fst (version_outcome _ _ _ _)),
    (fst (rules_outcome _ _ _ _)); reflexivity.
Qed.

End RunFacts.

(** ** Softened failures *)

(** C1, as stated, fails in one respect: a failed sub-resolution does not
    always leave its field unset.  The caller's parameters carry a rule set,
    the configuration has none and the rule provider fails: the failure is
    caught and logged, and the field keeps the rule set copied from the
    caller. *)
Lemma failed_rules_keep_copied_field :
  let r := fetchRuntimeParameters sample_url_parses failing_provider sample_config
             0%nat world_with_rules in
  fst (fetchValidatorRules_ failing_provider world_with_rules)
    = Throw (Failure "validator rules unavailable") /\
  fst r = Ok 1%nat /\
  List.In (ELogError "Could not fetch validator rules"
             (Some (Failure "validator rules unavailable"))) (trace (snd r)) /\
  validatorRules <$> heap (snd r) !! 1%nat = Some (Some sample_rules).
Proof.
  cbn zeta. split; [reflexivity|]. split; [vm_compute; reflexivity|].
  split; [vm_compute; tauto|]. vm_compute. reflexivity.
Qed.

(** C1, amended.  Called with a parameter object, [fetchRuntimeParameters]
    always returns an object and never fails.  Each of the three
    sub-resolutions is attempted in the world left by the one before,
    whatever its outcome was; when one fails, the failure is logged through
    [config.log.error] and its field stays as it was copied from the
    caller's parameters; when it succeeds, the field holds its result. *)
Theorem fetchRuntimeParameters_best_effort (url_parses : string -> bool)
    (rulesProvider : list Event -> option Value -> Outcome RuleSet)
    (config : Config) (custom : loc) (p : RuntimeParameters) (w : World) :
  heap w !! custom = Some p ->
  exists l rp w',
    fetchRuntimeParameters url_parses rulesProvider config custom w = (Ok l, w') /\
    heap w' !! l = Some rp /\
    (forall e, fst (rules_outcome rulesProvider config p w) = Throw e ->
       List.In (ELogError MSG_RULES (Some e)) (trace w') /\
       validatorRules rp = validatorRules p) /\
    (forall r, fst (rules_outcome rulesProvider config p w) = Ok r ->
       validatorRules rp = Some r) /\
    (forall e, fst (version_outcome rulesProvider config p w) = Throw e ->
       List.In (ELogError MSG_VERSION (Some e)) (trace w') /\
       ampRuntimeVersion rp = ampRuntimeVersion p) /\
    (forall v, fst (version_outcome rulesProvider config p w) = Ok v ->
       ampRuntimeVersion rp = v) /\
    (forall e, fst (styles_outcome url_parses rulesProvider config p w) = Throw e ->
       List.In (ELogError MSG_STYLES (Some e)) (trace w') /\
       ampRuntimeStyles rp = ampRuntimeStyles p) /\
    (forall s, fst (styles_outcome url_parses rulesProvider config p w) = Ok s ->
       ampRuntimeStyles rp = s).
Proof.
  intros Hcustom.
  exists (new_object w), (object_at_return url_parses rulesProvider config p w),
    (world_at_return url_parses rulesProvider config p w).
  split; [by apply fetchRuntimeParameters_run|].
  split; [rewrite heap_at_return; apply lookup_insert_eq|].
  rewrite validatorRules_at_return, ampRuntimeVersion_at_return,
    ampRuntimeStyles_at_return.
  split; [|split; [|split; [|split; [|split]]]]; intros x Hx;
    try (by rewrite Hx); (split; [|by rewrite Hx]).
  - apply in_trace_version_return. unfold world_at_version. cbn [trace with_heap].
    by apply trace_log_failure_in.
  - apply in_trace_styles_return. unfold world_at_styles. cbn [trace with_heap].
    by apply trace_log_failure_in.
  - unfold world_at_return. cbn [trace with_heap]. by apply trace_log_failure_in.
Qed.

(** With the rule provider down, the call still returns its object, with the
    version and the styles resolved. *)
Lemma fetchRuntimeParameters_best_effort_witness :
  exists l rp w',
    fetchRuntimeParameters sample_url_parses failing_provider sample_config
      0%nat sample_world = (Ok l, w') /\
    heap w' !! l = Some rp /\
    ampRuntimeVersion rp = VString "002" /\
    ampRuntimeStyles rp = VString "body{}".
Proof.
  destruct (fetchRuntimeParameters_best_effort sample_url_parses failing_provider
              sample_config 0%nat empty_object sample_world)
    as (l & rp & w' & Hrun & Hobj & _ & _ & _ & Hversion & _ & Hstyles).
  - reflexivity.
  - exists l, rp, w'. split; [exact Hrun|]. split; [exact Hobj|]. split.
    + apply Hversion. vm_compute. reflexivity.
    + apply Hstyles. vm_compute. reflexivity.
Defined.

(** ** Precedence for the runtime version *)

(** C6, as stated, fails: a version given in the configuration is not used.
    The caller gives none, the configuration names 001, and the call asks the
    version source and takes its answer 002. *)
Lemma config_version_not_used :
  let r := fetchRuntimeParameters sample_url_parses sample_provider
             config_with_version 0%nat sample_world in
  ampRuntimeVersion <$> heap sample_world !! 0%nat = Some VUndefined /\
  cfg_ampRuntimeVersion config_with_version = VString "001" /\
  fst r = Ok 1%nat /\
  ampRuntimeVersion <$> heap (snd r) !! 1%nat = Some (VString "002") /\
  version_calls (trace (snd r)) = 1%nat.
Proof.
  cbn zeta. split; [reflexivity|]. split; [reflexivity|].
  split; [vm_compute; reflexivity|]. split; vm_compute; reflexivity.
Qed.

(** C6, amended.  The precedence is explicit > fetched; the configuration
    has no say.  Whatever version the configuration names, the run is the
    same.  A version set by the caller is used and the version resolver is
    not called; without one the version comes from the version resolver. *)
Theorem ampRuntimeVersion_precedence (url_parses : string -> bool)
    (rulesProvider : list Event -> option Value -> Outcome RuleSet)
    (config : Config) (custom : loc) (p : RuntimeParameters) (w : World) :
  heap w !! custom = Some p ->
  (forall v,
     fetchRuntimeParameters url_parses rulesProvider
       (with_cfg_ampRuntimeVersion v config) custom w =
     fetchRuntimeParameters url_parses rulesProvider config custom w) /\
  exists l rp w',
    fetchRuntimeParameters url_parses rulesProvider config custom w = (Ok l, w') /\
    heap w' !! l = Some rp /\
    (truthy (ampRuntimeVersion p) = true ->
       ampRuntimeVersion rp = ampRuntimeVersion p /\
       version_outcome rulesProvider config p w =
         (Ok (ampRuntimeVersion p), world_at_version rulesProvider config p w) /\
       trace (world_at_styles rulesProvider config p w) =
         trace (world_at_version rulesProvider config p w)) /\
    (truthy (ampRuntimeVersion p) = false ->
       version_outcome rulesProvider config p w =
         fetchAmpRuntimeVersion_ (CfgObject config) (ampUrlPrefix p)
           (js_or (js_or (lts p) (cfg_lts config)) (VBool false))
           (world_at_version rulesProvider config p w) /\
       forall v, fst (version_outcome rulesProvider config p w) = Ok v ->
                 ampRuntimeVersion rp = v).
Proof.
  intros Hcustom. split; [intros v; reflexivity|].
  exists (new_object w), (object_at_return url_parses rulesProvider config p w),
    (world_at_return url_parses rulesProvider config p w).
  split; [by apply fetchRuntimeParameters_run|].
  split; [rewrite heap_at_return; apply lookup_insert_eq|].
  rewrite ampRuntimeVersion_at_return.
  assert (Hfields :
    ampRuntimeVersion (object_after_rules rulesProvider config p w) = ampRuntimeVersion p /\
    ampUrlPrefix (object_after_rules rulesProvider config p w) = ampUrlPrefix p /\
    lts (object_after_rules rulesProvider config p w) =
      js_or (js_or (lts p) (cfg_lts config)) (VBool false)).
  { unfold object_after_rules.
    destruct (fst (rules_outcome _ _ _ _)); by repeat split. }
  destruct Hfields as (Hv & Hprefix & Hlts).
  split.
  - intros Hset.
    assert (Hout : version_outcome rulesProvider config p w =
                   (Ok (ampRuntimeVersion p), world_at_version rulesProvider config p w)).
    { unfold version_outcome, version_attempt. by rewrite Hv, Hset. }
    split; [by rewrite Hout|]. split; [exact Hout|].
    unfold world_at_styles. by rewrite Hout.
  - intros Hunset. split.
    + unfold version_outcome, version_attempt. by rewrite Hv, Hunset, Hprefix, Hlts.
    + intros v Hok. by rewrite Hok.
Qed.

Lemma ampRuntimeVersion_precedence_witness :
  fetchRuntimeParameters sample_url_parses sample_provider
    (with_cfg_ampRuntimeVersion (VString "001") sample_config) 0%nat sample_world =
  fetchRuntimeParameters sample_url_parses sample_provider sample_config
    0%nat sample_world.
Proof.
  destruct (ampRuntimeVersion_precedence sample_url_parses sample_provider
              sample_config 0%nat empty_object sample_world) as (Hsame & _).
  - reflexivity.
  - apply Hsame.
Defined.

(** ** The caller's object *)

Lemma writes_only_stable {A} (l : loc) (m : M A) : stable m -> writes_only l m.
Proof. intros Hm w. destruct (Hm w) as [-> _]. by split. Qed.

Lemma writes_only_read (l l0 : loc) : writes_only l (read_object l0).
Proof. intros w. unfold read_object. by destruct (heap w !! l0). Qed.

Lemma writes_only_update (l : loc) (f : RuntimeParameters -> RuntimeParameters) :
  writes_only l (update_object l f).
Proof.
  intros w. unfold update_object. destruct (heap w !! l) eqn:Hl; cbn; [|by split].
  split.
  - intros l' Hne. by rewrite lookup_insert_ne.
  - intros _. rewrite lookup_insert_eq. by eexists.
Qed.

Lemma writes_only_bind {A B} (l : loc) (m : M A) (k : A -> M B) :
  writes_only l m -> (forall a, writes_only l (k a)) -> writes_only l (bind m k).
Proof.
  intros Hm Hk w. unfold bind. specialize (Hm w).
  destruct (m w) as [[a|e] w1]; cbn in *; [|exact Hm].
  destruct Hm as [Hm1 Hm2]. destruct (Hk a w1) as [Hk1 Hk2]. split.
  - intros l' Hne. by rewrite Hk1, Hm1.
  - intros H. by apply Hk2, Hm2.
Qed.

Lemma writes_only_try_catch {A} (l : loc) (m : M A) (h : Error -> M A) :
  writes_only l m -> (forall e, writes_only l (h e)) -> writes_only l (try_catch m h).
Proof.
  intros Hm Hh w. unfold try_catch. specialize (Hm w).
  destruct (m w) as [[a|e] w1]; cbn in *; [exact Hm|].
  destruct Hm as [Hm1 Hm2]. destruct (Hh e w1) as [Hh1 Hh2]. split.
  - intros l' Hne. by rewrite Hh1, Hm1.
  - intros H. by apply Hh2, Hm2.
Qed.

Lemma returns_ret {A} (l : A) : returns l (ret l).
Proof. intros w a [= <-]. reflexivity. Qed.

Lemma returns_bind {A B} (l : B) (m : M A) (k : A -> M B) :
  (forall a, returns l (k a)) -> returns l (bind m k).
Proof.
  intros Hk w b. unfold bind. destruct (m w) as [[a|e] w1]; cbn.
  - apply Hk.
  - discriminate.
Qed.

#[export] Hint Resolve stable_fetchValidatorRules_ stable_fetchAmpRuntimeVersion_
  stable_fetchAmpRuntimeStyles_ : stable.

(** Splits a computation of the orchestrator along its structure. *)
Ltac writes_only_step :=
  match goal with
  | |- writes_only _ (bind _ _) => apply writes_only_bind; [|intros ?]
  | |- writes_only _ (try_catch _ _) => apply writes_only_try_catch; [|intros ?]
  | |- writes_only _ (read_object _) => apply writes_only_read
  | |- writes_only _ (update_object _ _) => apply writes_only_update
  | |- writes_only _ (if ?b then _ else _) => destruct b
  | |- writes_only _ (match ?o with Some _ => _ | None => _ end) => destruct o
  | |- writes_only _ _ => apply writes_only_stable; solve [auto with stable]
  end.

(** C10. [fetchRuntimeParameters] never changes the object it is given, nor
    any other object that existed before the call: what it returns is a new
    object, absent from the heap before the call, and all its assignments go
    to that object. *)
Theorem fetchRuntimeParameters_frame (url_parses : string -> bool)
    (rulesProvider : list Event -> option Value -> Outcome RuleSet)
    (config : Config) (customRuntimeParameters : loc) (w : World) :
  let r := fetchRuntimeParameters url_parses rulesProvider config
             customRuntimeParameters w in
  (forall l p, heap w !! l = Some p -> heap (snd r) !! l = Some p) /\
  (forall l, fst r = Ok l -> heap w !! l = None /\ is_Some (heap (snd r) !! l)).
Proof.
  cbn zeta. unfold fetchRuntimeParameters.
  match goal with
  | |- context [bind (object_assign_new customRuntimeParameters) ?k] => set (body := k)
  end.
  assert (Hwrites : forall l, writes_only l (body l)).
  { intros l. subst body. cbn beta. repeat writes_only_step. }
  assert (Hreturns : forall l, returns l (body l)).
  { intros l. subst body. cbn beta.
    repeat (apply returns_bind; intros ?). apply returns_ret. }
  unfold bind, object_assign_new.
  set (l := fresh (dom (heap w))).
  set (w0 := with_heap _ w).
  assert (Hfresh : heap w !! l = None) by apply new_object_fresh.
  destruct (Hwrites l w0) as [Hother Hkept].
  split.
  - intros l' p Hl'. rewrite Hother by congruence.
    subst w0. cbn. rewrite lookup_insert_ne by congruence. exact Hl'.
  - intros l' Hok. apply Hreturns in Hok. subst l'. split; [exact Hfresh|].
    apply Hkept. subst w0. cbn. rewrite lookup_insert_eq. by eexists.
Qed.

(** ** Cache entries that cannot be read *)

(** The miss paths of the three resolvers, as the code writes them. *)
Section MissPaths.

Variable rulesProvider : list Event -> option Value -> Outcome RuleSet.


End MissPaths.


(** * Further properties *)

(** ** The version resolver, hit and miss *)

Lemma fetchAmpRuntimeVersion_miss_run (config : Config) (ampUrlPrefix lts v : Value)
    (w : World) :
  versionKey ampUrlPrefix lts ∉ unreadable w ->
  truthy (default VUndefined (cache w !! versionKey ampUrlPrefix lts)) = false ->
  cfg_currentVersion config (trace w) (Some (ampUrlPrefix, lts)) = Ok v ->
  fetchAmpRuntimeVersion_ (CfgObject config) ampUrlPrefix lts w =
    (Ok v,
     mkWorld (<[versionKey ampUrlPrefix lts :=
                  VRuntimeData v (VMaxAge (now w) AMP_RUNTIME_MAX_AGE)]> (cache w))
             (unreadable w) (now w) (heap w) (pending w)
             (trace w ++ [ECurrentVersion (Some (ampUrlPrefix, lts));
                          EConsoleLog (versionKey ampUrlPrefix lts)
                            (VRuntimeData v (VMaxAge (now w) AMP_RUNTIME_MAX_AGE))])).
Proof.
  intros Hread Hmiss Hv.
  unfold fetchAmpRuntimeVersion_, fetchLatestRuntimeData_,
    fetchLatestRuntimeData_call, fetchLatestRuntimeData_resume,
    call_currentVersion, versionKey in *.
  unfold_monad.
  destruct (decide _) as [?|_]; [done|].
  rewrite Hmiss. cbn. rewrite Hv. cbn.
  by rewrite <- List.app_assoc.
Qed.

(** A hit on a record whose stamp has not run out. *)
Lemma fetchAmpRuntimeVersion_fresh_run (config : ConfigArg)
    (ampUrlPrefix lts cached : Value) (createdAt duration : Z) (w : World) :
  versionKey ampUrlPrefix lts ∉ unreadable w ->
  cache w !! versionKey ampUrlPrefix lts =
    Some (VRuntimeData cached (VMaxAge createdAt duration)) ->
  now w <= createdAt + duration ->
  fetchAmpRuntimeVersion_ config ampUrlPrefix lts w = (Ok cached, w).
Proof.
  intros Hread Hhit Hfresh.
  unfold fetchAmpRuntimeVersion_, versionKey in *. unfold_monad.
  destruct (decide _) as [?|_]; [done|].
  rewrite Hhit. cbn.
  assert (Hexp : MaxAge.isExpired (MaxAge.mk createdAt duration) (now w) = false).
  { unfold MaxAge.isExpired. cbn. apply Z.ltb_ge. lia. }
  by rewrite Hexp.
Qed.


(** X1. A hit on a record that is not yet expired returns the cached
    version and does nothing else: no call to the version source, no write
    to the cache, no refresh left pending.  This holds whatever stands in
    the place of the configuration, which is not used. *)
Theorem fetchAmpRuntimeVersion_fresh (config : ConfigArg)
    (ampUrlPrefix lts cached : Value) (createdAt duration : Z) (w : World) :
  versionKey ampUrlPrefix lts ∉ unreadable w ->
  cache w !! versionKey ampUrlPrefix lts =
    Some (VRuntimeData cached (VMaxAge createdAt duration)) ->
  now w <= createdAt + duration ->
  fetchAmpRuntimeVersion_ config ampUrlPrefix lts w = (Ok cached, w).
Proof.
  intros Hread Hhit Hfresh.
  unfold fetchAmpRuntimeVersion_, versionKey in *. unfold_monad.
  destruct (decide _) as [?|_]; [done|].
  rewrite Hhit. cbn.
  assert (Hexp : MaxAge.isExpired (MaxAge.mk createdAt duration) (now w) = false).
  { unfold MaxAge.isExpired. cbn. apply Z.ltb_ge. lia. }
  by rewrite Hexp.
Qed.

Lemma fetchAmpRuntimeVersion_fresh_witness :
  fetchAmpRuntimeVersion_ (CfgObject sample_config) (VString "") (VBool false)
    fresh_world = (Ok (VString "001"), fresh_world).
Proof.
  apply (fetchAmpRuntimeVersion_fresh (CfgObject sample_config) (VString "")
           (VBool false) (VString "001") 900 600 fresh_world).
  - apply not_elem_of_empty.
  - reflexivity.
  - vm_compute. discriminate.
Defined.

(** X2. What a miss stores is what the next calls read: after a miss that
    fetched version [v], every call for the same prefix and lts flag made
    within 600 seconds returns [v] and leaves the world as it is, so the
    version source is not called again. *)
Theorem fetchAmpRuntimeVersion_miss_then_hit (config : Config)
    (ampUrlPrefix lts v : Value) (w : World) (t : Z) :
  versionKey ampUrlPrefix lts ∉ unreadable w ->
  truthy (default VUndefined (cache w !! versionKey ampUrlPrefix lts)) = false ->
  cfg_currentVersion config (trace w) (Some (ampUrlPrefix, lts)) = Ok v ->
  t <= now w + 600 ->
  let w1 := with_now t
    (snd (fetchAmpRuntimeVersion_ (CfgObject config) ampUrlPrefix lts w)) in
  fetchAmpRuntimeVersion_ (CfgObject config) ampUrlPrefix lts w1 = (Ok v, w1).
Proof.
  intros Hread Hmiss Hv Ht.
  rewrite (fetchAmpRuntimeVersion_miss_run config ampUrlPrefix lts v w) by done.
  cbn zeta. cbn [snd].
  apply (fetchAmpRuntimeVersion_fresh_run _ _ _ v (now w) AMP_RUNTIME_MAX_AGE).
  - exact Hread.
  - cbn. apply lookup_insert_eq.
  - cbn. unfold AMP_RUNTIME_MAX_AGE. lia.
Qed.

Lemma fetchAmpRuntimeVersion_miss_then_hit_witness :
  let w1 := with_now 1600
    (snd (fetchAmpRuntimeVersion_ (CfgObject sample_config) (VString "")
            (VBool false) sample_world)) in
  fetchAmpRuntimeVersion_ (CfgObject sample_config) (VString "") (VBool false) w1
    = (Ok (VString "002"), w1).
Proof.
  apply (fetchAmpRuntimeVersion_miss_then_hit sample_config (VString "")
           (VBool false) (VString "002") sample_world 1600).
  - apply not_elem_of_empty.
  - reflexivity.
  - reflexivity.
  - vm_compute. discriminate.
Defined.

(** X3. When the version source fails on a miss, the version resolver fails
    with the same error after that one call, and nothing is stored: the
    cache is unchanged and no refresh is pending. *)
Theorem fetchAmpRuntimeVersion_source_fails (config : Config)
    (ampUrlPrefix lts : Value) (e : Error) (w : World) :
  versionKey ampUrlPrefix lts ∉ unreadable w ->
  truthy (default VUndefined (cache w !! versionKey ampUrlPrefix lts)) = false ->
  cfg_currentVersion config (trace w) (Some (ampUrlPrefix, lts)) = Throw e ->
  fetchAmpRuntimeVersion_ (CfgObject config) ampUrlPrefix lts w =
    (Throw e, with_trace (trace w ++ [ECurrentVersion (Some (ampUrlPrefix, lts))]) w).
Proof.
  intros Hread Hmiss He.
  unfold fetchAmpRuntimeVersion_, fetchLatestRuntimeData_,
    fetchLatestRuntimeData_call, fetchLatestRuntimeData_resume,
    call_currentVersion, versionKey in *.
  unfold_monad.
  destruct (decide _) as [?|_]; [done|].
  rewrite Hmiss. cbn. by rewrite He.
Qed.

Lemma fetchAmpRuntimeVersion_source_fails_witness :
  fetchAmpRuntimeVersion_ (CfgObject failing_version_config) (VString "")
    (VBool false) sample_world =
  (Throw (Failure "version source unavailable"),
   with_trace [ECurrentVersion (Some (VString "", VBool false))] sample_world).
Proof.
  apply (fetchAmpRuntimeVersion_source_fails failing_version_config (VString "")
           (VBool false) (Failure "version source unavailable") sample_world).
  - apply not_elem_of_empty.
  - reflexivity.
  - reflexivity.
Defined.

(** X4. A stale hit repairs the cache for the calls that follow.  Once the
    refresh left pending by a stale hit has been settled with the answer
    [latest] of the version source, a call made within 600 seconds of the
    settlement returns [latest], again without calling the version source. *)
Theorem fetchAmpRuntimeVersion_stale_then_refreshed (config : Config)
    (ampUrlPrefix lts cached latest : Value) (createdAt duration t t' : Z)
    (w : World) :
  versionKey ampUrlPrefix lts ∉ unreadable w ->
  cache w !! versionKey ampUrlPrefix lts =
    Some (VRuntimeData cached (VMaxAge createdAt duration)) ->
  createdAt + duration < now w ->
  pending w = [] ->
  cfg_currentVersion config (trace w) (Some (ampUrlPrefix, lts)) = Ok latest ->
  t' <= t + 600 ->
  let w1 := snd (fetchAmpRuntimeVersion_ (CfgObject config) ampUrlPrefix lts w) in
  let w2 := with_now t' (snd (run_pending (with_now t w1))) in
  fst (fetchAmpRuntimeVersion_ (CfgObject config) ampUrlPrefix lts w) = Ok cached /\
  fst (run_pending (with_now t w1)) = Ok tt /\
  pending w2 = [] /\
  fetchAmpRuntimeVersion_ (CfgObject config) ampUrlPrefix lts w2 = (Ok latest, w2).
Proof.
  intros Hread Hhit Hstale Hpending Hlatest Ht.
  assert (Hrun : fetchAmpRuntimeVersion_ (CfgObject config) ampUrlPrefix lts w =
    (Ok cached,
     mkWorld (cache w) (unreadable w) (now w) (heap w)
       [mkPending (versionKey ampUrlPrefix lts) (Ok latest)]
       (trace w ++ [ECurrentVersion (Some (ampUrlPrefix, lts))]))).
  { unfold fetchAmpRuntimeVersion_, fetchLatestRuntimeData_background,
      fetchLatestRuntimeData_call, call_currentVersion, versionKey in *.
    unfold_monad.
    destruct (decide _) as [?|_]; [done|].
    rewrite Hhit. cbn.
    assert (Hexp : MaxAge.isExpired (MaxAge.mk createdAt duration) (now w) = true).
    { unfold MaxAge.isExpired. cbn. apply Z.ltb_lt. lia. }
    by rewrite Hexp, Hlatest, Hpending. }
  rewrite Hrun. cbn zeta. cbn [fst snd].
  split; [reflexivity|].
  unfold run_pending, settle_all, settle, fetchLatestRuntimeData_resume.
  unfold_monad. cbn.
  split; [reflexivity|]. split; [reflexivity|].
  apply (fetchAmpRuntimeVersion_fresh_run _ _ _ latest t AMP_RUNTIME_MAX_AGE).
  - exact Hread.
  - cbn. apply lookup_insert_eq.
  - cbn. unfold AMP_RUNTIME_MAX_AGE. lia.
Qed.

Lemma fetchAmpRuntimeVersion_stale_then_refreshed_witness :
  let w1 := snd (fetchAmpRuntimeVersion_ (CfgObject sample_config) (VString "")
                   (VBool false) stale_world) in
  let w2 := with_now 1500 (snd (run_pending (with_now 1001 w1))) in
  fetchAmpRuntimeVersion_ (CfgObject sample_config) (VString "") (VBool false) w2
    = (Ok (VString "002"), w2).
Proof.
  destruct (fetchAmpRuntimeVersion_stale_then_refreshed sample_config (VString "")
              (VBool false) (VString "001") (VString "002") 0 600 1001 1500
              stale_world) as (_ & _ & _ & Hnext).
  - apply not_elem_of_empty.
  - reflexivity.
  - reflexivity.
  - reflexivity.
  - reflexivity.
  - vm_compute. discriminate.
  - exact Hnext.
Defined.

(** ** The style download *)

(** A download served from the cache. *)
Lemma downloadAmpRuntimeStyles_hit_run (config : ConfigArg) (url : string)
    (styles : Value) (w : World) :
  url ∉ unreadable w ->
  cache w !! url = Some styles ->
  truthy styles = true ->
  downloadAmpRuntimeStyles_ config url w = (Ok styles, w).
Proof.
  intros Hread Hhit Htruthy. unfold downloadAmpRuntimeStyles_. unfold_monad.
  destruct (decide _) as [?|_]; [done|].
  rewrite Hhit. cbn. by rewrite Htruthy.
Qed.


(** X5. A download whose URL is cached with a truthy value returns that
    value and does nothing else: [config.fetch] is not called and the world
    is unchanged, whatever stands in the place of the configuration. *)
Theorem downloadAmpRuntimeStyles_hit (config : ConfigArg) (url : string)
    (styles : Value) (w : World) :
  url ∉ unreadable w ->
  cache w !! url = Some styles ->
  truthy styles = true ->
  downloadAmpRuntimeStyles_ config url w = (Ok styles, w).
Proof.
  intros Hread Hhit Htruthy. unfold downloadAmpRuntimeStyles_. unfold_monad.
  destruct (decide _) as [?|_]; [done|].
  rewrite Hhit. cbn. by rewrite Htruthy.
Qed.

Lemma downloadAmpRuntimeStyles_hit_witness :
  let w := with_cache {[ "https://cdn.ampproject.org/rtv/001/v0.css" := VString "a{}" ]}
             sample_world in
  downloadAmpRuntimeStyles_ (CfgObject offline_config)
    "https://cdn.ampproject.org/rtv/001/v0.css" w = (Ok (VString "a{}"), w).
Proof.
  apply (downloadAmpRuntimeStyles_hit (CfgObject offline_config)
           "https://cdn.ampproject.org/rtv/001/v0.css" (VString "a{}")).
  - apply not_elem_of_empty.
  - reflexivity.
  - reflexivity.
Defined.

(** The download on a miss, for each answer of [config.fetch]. *)
Lemma downloadAmpRuntimeStyles_miss_run (config : Config) (url : string) (w : World) :
  url ∉ unreadable w ->
  truthy (default VUndefined (cache w !! url)) = false ->
  downloadAmpRuntimeStyles_ (CfgObject config) url w =
    match cfg_fetch config (trace w) url with
    | Ok response =>
        if ok response
        then (Ok (VString (text response)),
              with_cache (<[url := VString (text response)]> (cache w))
                (with_trace (trace w ++ [EFetch url]) w))
        else (Ok VNull, with_trace (trace w ++ [EFetch url]) w)
    | Throw e => (Throw e, with_trace (trace w ++ [EFetch url]) w)
    end.
Proof.
  intros Hread Hmiss. unfold downloadAmpRuntimeStyles_, call_fetch. unfold_monad.
  destruct (decide _) as [?|_]; [done|].
  rewrite Hmiss. cbn.
  destruct (cfg_fetch _ _ _) as [response|e]; [|reflexivity].
  by destruct (ok response).
Qed.

(** X6. What a download stores is what the next download reads: after a
    successful download of a body that is not empty, downloading the same
    URL again returns the same text from the cache, without a call to
    [config.fetch] and without any change to the world. *)
Theorem downloadAmpRuntimeStyles_round_trip (config : Config) (config' : ConfigArg)
    (url : string) (response : Response) (w : World) :
  url ∉ unreadable w ->
  truthy (default VUndefined (cache w !! url)) = false ->
  cfg_fetch config (trace w) url = Ok response ->
  ok response = true ->
  text response <> "" ->
  let r := downloadAmpRuntimeStyles_ (CfgObject config) url w in
  fst r = Ok (VString (text response)) /\
  downloadAmpRuntimeStyles_ config' url (snd r) =
    (Ok (VString (text response)), snd r).
Proof.
  intros Hread Hmiss Hfetch Hok Hbody.
  rewrite downloadAmpRuntimeStyles_miss_run by done.
  rewrite Hfetch, Hok. cbn zeta. cbn [fst snd]. split; [reflexivity|].
  apply downloadAmpRuntimeStyles_hit_run.
  - exact Hread.
  - cbn. apply lookup_insert_eq.
  - cbn. destruct (String.eqb_spec (text response) ""); [done|reflexivity].
Qed.

Lemma downloadAmpRuntimeStyles_round_trip_witness :
  let r := downloadAmpRuntimeStyles_ (CfgObject sample_config)
             "https://cdn.ampproject.org/rtv/002/v0.css" sample_world in
  downloadAmpRuntimeStyles_ (CfgObject offline_config)
    "https://cdn.ampproject.org/rtv/002/v0.css" (snd r) =
  (Ok (VString "body{}"), snd r).
Proof.
  destruct (downloadAmpRuntimeStyles_round_trip sample_config
              (CfgObject offline_config)
              "https://cdn.ampproject.org/rtv/002/v0.css"
              (mkResponse true "body{}") sample_world) as (_ & Hagain).
  - apply not_elem_of_empty.
  - reflexivity.
  - reflexivity.
  - reflexivity.
  - discriminate.
  - exact Hagain.
Defined.

(** X7. An empty text in the cache is never a hit.  The cache test is a
    test for falsiness, so a URL cached with the empty string is downloaded
    again on every call. *)
Theorem downloadAmpRuntimeStyles_empty_entry_refetched (config : Config)
    (url : string) (w : World) :
  url ∉ unreadable w ->
  cache w !! url = Some (VString "") ->
  trace (snd (downloadAmpRuntimeStyles_ (CfgObject config) url w)) =
    (trace w ++ [EFetch url])%list /\
  fetch_calls (trace (snd (downloadAmpRuntimeStyles_ (CfgObject config) url w))) =
    S (fetch_calls (trace w)).
Proof.
  intros Hread Hentry.
  rewrite downloadAmpRuntimeStyles_miss_run by (done || by rewrite Hentry).
  assert (Htrace : trace (snd
    match cfg_fetch config (trace w) url with
    | Ok response =>
        if ok response
        then (Ok (VString (text response)),
              with_cache (<[url := VString (text response)]> (cache w))
                (with_trace (trace w ++ [EFetch url]) w))
        else (Ok VNull, with_trace (trace w ++ [EFetch url]) w)
    | Throw e => (Throw e, with_trace (trace w ++ [EFetch url]) w)
    end) = (trace w ++ [EFetch url])%list).
  { destruct (cfg_fetch _ _ _) as [response|e]; [|reflexivity].
    by destruct (ok response). }
  rewrite Htrace. split; [reflexivity|].
  unfold fetch_calls. rewrite List.filter_app, length_app. cbn. lia.
Qed.

Lemma downloadAmpRuntimeStyles_empty_entry_refetched_witness :
  let url := "https://cdn.ampproject.org/rtv/001/v0.css" in
  let w := with_cache {[ url := VString "" ]} sample_world in
  trace (snd (downloadAmpRuntimeStyles_ (CfgObject empty_body_config) url w)) =
    [EFetch url].
Proof.
  destruct (downloadAmpRuntimeStyles_empty_entry_refetched empty_body_config
              "https://cdn.ampproject.org/rtv/001/v0.css"
              (with_cache {[ "https://cdn.ampproject.org/rtv/001/v0.css" := VString "" ]}
                 sample_world)) as (Htrace & _).
  - apply not_elem_of_empty.
  - reflexivity.
  - exact Htrace.
Defined.

(** X8. A failed download is never cached: when [config.fetch] fails or
    answers with a response that is not ok, the download leaves the cache
    exactly as it was, and its result is the failure itself or [null]. *)
Theorem downloadAmpRuntimeStyles_failure_not_cached (config : Config)
    (url : string) (w : World) :
  url ∉ unreadable w ->
  truthy (default VUndefined (cache w !! url)) = false ->
  (forall response,
     cfg_fetch config (trace w) url = Ok response -> ok response = false) ->
  let r := downloadAmpRuntimeStyles_ (CfgObject config) url w in
  cache (snd r) = cache w /\
  match cfg_fetch config (trace w) url with
  | Ok _ => fst r = Ok VNull
  | Throw e => fst r = Throw e
  end.
Proof.
  intros Hread Hmiss Hfail. cbn zeta.
  rewrite downloadAmpRuntimeStyles_miss_run by done.
  destruct (cfg_fetch _ _ _) as [response|e]; [|by split].
  rewrite (Hfail response eq_refl). by split.
Qed.

Lemma downloadAmpRuntimeStyles_failure_not_cached_witness :
  let r := downloadAmpRuntimeStyles_ (CfgObject offline_config)
             "https://cdn.ampproject.org/rtv/001/v0.css" sample_world in
  cache (snd r) = cache sample_world /\ fst r = Ok VNull.
Proof.
  apply (downloadAmpRuntimeStyles_failure_not_cached offline_config
           "https://cdn.ampproject.org/rtv/001/v0.css" sample_world).
  - apply not_elem_of_empty.
  - reflexivity.
  - intros response [= <-]. reflexivity.
Defined.

(** ** The style resolver *)

(** X9. With a prefix that is unset or absolute, a cold cache and a
    download that succeeds with a body that is not empty, the style resolver
    returns that body and stores it under the URL made of the prefix (the
    canonical host when unset), the version and the CSS path; it makes one
    download, logs nothing and does not ask for a version. *)
Theorem fetchAmpRuntimeStyles_downloads (url_parses : string -> bool)
    (config : Config) (ampUrlPrefix ampRuntimeVersion : Value)
    (response : Response) (w : World) :
  let url := runtimeCssUrl ampUrlPrefix ampRuntimeVersion in
  truthy ampUrlPrefix && negb (_isAbsoluteUrl url_parses ampUrlPrefix) = false ->
  url ∉ unreadable w ->
  truthy (default VUndefined (cache w !! url)) = false ->
  cfg_fetch config (trace w) url = Ok response ->
  ok response = true ->
  text response <> "" ->
  fetchAmpRuntimeStyles_ url_parses (CfgObject config) ampUrlPrefix ampRuntimeVersion w =
    (Ok (VString (text response)),
     with_cache (<[url := VString (text response)]> (cache w))
       (with_trace (trace w ++ [EFetch url]) w)).
Proof.
  intros url Hvalid Hread Hmiss Hfetch Hok Hbody.
  rewrite fetchAmpRuntimeStyles_valid_prefix by exact Hvalid.
  unfold bind. fold url.
  rewrite downloadAmpRuntimeStyles_miss_run by done.
  rewrite Hfetch, Hok. cbn [truthy].
  destruct (String.eqb_spec (text response) ""); [done|reflexivity].
Qed.

Lemma fetchAmpRuntimeStyles_downloads_witness :
  fst (fetchAmpRuntimeStyles_ sample_url_parses (CfgObject sample_config)
         VUndefined (VString "002") sample_world) = Ok (VString "body{}").
Proof.
  rewrite (fetchAmpRuntimeStyles_downloads sample_url_parses sample_config
             VUndefined (VString "002") (mkResponse true "body{}") sample_world).
  - reflexivity.
  - reflexivity.
  - apply not_elem_of_empty.
  - reflexivity.
  - reflexivity.
  - reflexivity.
  - discriminate.
Defined.

(** X10. The terminal fallback.  When neither a prefix nor a version was
    given and the download from the canonical host is answered with a
    response that is not ok, the style resolver logs the failed URL and
    returns the empty string: it makes no retry, asks for no version and
    writes nothing to the cache. *)
Theorem fetchAmpRuntimeStyles_gives_up (url_parses : string -> bool)
    (config : Config) (ampUrlPrefix ampRuntimeVersion : Value)
    (response : Response) (w : World) :
  let url := runtimeCssUrl ampUrlPrefix ampRuntimeVersion in
  truthy ampUrlPrefix = false ->
  truthy ampRuntimeVersion = false ->
  url ∉ unreadable w ->
  truthy (default VUndefined (cache w !! url)) = false ->
  cfg_fetch config (trace w) url = Ok response ->
  ok response = false ->
  fetchAmpRuntimeStyles_ url_parses (CfgObject config) ampUrlPrefix ampRuntimeVersion w =
    (Ok (VString ""),
     with_trace (trace w ++ [EFetch url; ELogError ("Could not download " +:+ url) None]) w).
Proof.
  intros url Hprefix Hversion Hread Hmiss Hfetch Hok.
  rewrite fetchAmpRuntimeStyles_valid_prefix by (by rewrite Hprefix).
  unfold bind at 1. fold url.
  rewrite downloadAmpRuntimeStyles_miss_run by done.
  rewrite Hfetch, Hok. cbn [truthy negb].
  unfold fallback, js_or, log_error. rewrite Hprefix, Hversion.
  unfold_monad. cbn. fold url. by rewrite <- List.app_assoc.
Qed.

Lemma fetchAmpRuntimeStyles_gives_up_witness :
  fst (fetchAmpRuntimeStyles_ sample_url_parses (CfgObject offline_config)
         VUndefined VUndefined sample_world) = Ok (VString "").
Proof.
  rewrite (fetchAmpRuntimeStyles_gives_up sample_url_parses offline_config
             VUndefined VUndefined (mkResponse false "") sample_world).
  - reflexivity.
  - reflexivity.
  - reflexivity.
  - apply not_elem_of_empty.
  - reflexivity.
  - reflexivity.
  - reflexivity.
Defined.

(** X11. The retry after a failed download cannot succeed for a regular
    version.  With a prefix that is unset or an absolute URL, a prefix or a
    version given, a download answered with a response that is not ok, and a
    latest version that is a non-empty string and no absolute URL, the style
    resolver logs the failed URL, asks for the latest version once and then
    fails with a TypeError, because its inner call takes the host for its
    configuration.  No second download is made and nothing is written to
    the cache. *)
Theorem fetchAmpRuntimeStyles_retry_fails (url_parses : string -> bool)
    (config : Config) (ampUrlPrefix ampRuntimeVersion latest : Value)
    (response : Response) (w : World) :
  let url := runtimeCssUrl ampUrlPrefix ampRuntimeVersion in
  let logged := (trace w ++ [EFetch url;
                             ELogError ("Could not download " +:+ url) None])%list in
  truthy ampUrlPrefix && negb (_isAbsoluteUrl url_parses ampUrlPrefix) = false ->
  truthy (js_or ampUrlPrefix ampRuntimeVersion) = true ->
  url ∉ unreadable w ->
  truthy (default VUndefined (cache w !! url)) = false ->
  cfg_fetch config (trace w) url = Ok response ->
  ok response = false ->
  cfg_currentVersion config logged None = Ok latest ->
  truthy latest = true ->
  _isAbsoluteUrl url_parses latest = false ->
  fetchAmpRuntimeStyles_ url_parses (CfgObject config) ampUrlPrefix ampRuntimeVersion w =
    (Throw (TypeError "config.log is undefined"),
     with_trace (logged ++ [ECurrentVersion None]) w).
Proof.
  intros url logged Hvalid Hgiven Hread Hmiss Hfetch Hok Hlatest Htruthy Hrel.
  rewrite fetchAmpRuntimeStyles_valid_prefix by exact Hvalid.
  unfold bind at 1. fold url.
  rewrite downloadAmpRuntimeStyles_miss_run by done.
  rewrite Hfetch, Hok. cbn [truthy negb].
  unfold fallback. rewrite Hgiven.
  unfold log_error, call_currentVersion, bind, emit, with_trace.
  cbn [trace cache unreadable now heap pending]. fold url.
  assert (Hlogged : ((trace w ++ [EFetch url]) ++
                     [ELogError ("Could not download " +:+ url) None])%list = logged)
    by (subst logged; by rewrite <- List.app_assoc).
  rewrite Hlogged, Hlatest.
  by rewrite fetchAmpRuntimeStyles_inner_call_fails.
Qed.

Lemma fetchAmpRuntimeStyles_retry_fails_witness :
  fst (fetchAmpRuntimeStyles_ sample_url_parses (CfgObject sample_config)
         mirror (VString "001") sample_world) =
  Throw (TypeError "config.log is undefined").
Proof.
  rewrite (fetchAmpRuntimeStyles_retry_fails sample_url_parses sample_config
             mirror (VString "001") (VString "002") (mkResponse false "")
             sample_world).
  - reflexivity.
  - reflexivity.
  - reflexivity.
  - apply not_elem_of_empty.
  - reflexivity.
  - reflexivity.
  - reflexivity.
  - reflexivity.
  - reflexivity.
  - reflexivity.
Defined.



(** ** The rule resolver *)

Section RuleResolverRuns.

Variable rulesProvider : list Event -> option Value -> Outcome RuleSet.

(** The rule resolver on a readable cache: one call to the provider, with
    the cached raw form on a hit and without argument on a miss. *)
Lemma fetchValidatorRules_run (w : World) :
  KEY_VALIDATOR_RULES ∉ unreadable w ->
  let cached := default VUndefined (cache w !! KEY_VALIDATOR_RULES) in
  let called := with_trace (trace w ++ [ERulesFetch
                  (if truthy cached then Some cached else None)]) w in
  fetchValidatorRules_ rulesProvider w =
    if truthy cached then (rulesProvider (trace w) (Some cached), called)
    else match rulesProvider (trace w) None with
         | Ok r => (Ok r, with_cache (<[KEY_VALIDATOR_RULES := raw r]> (cache w)) called)
         | Throw e => (Throw e, called)
         end.
Proof.
  intros Hread. cbn zeta.
  unfold fetchValidatorRules_, call_rulesProvider, KEY_VALIDATOR_RULES in *.
  unfold_monad.
  destruct (decide _) as [?|_]; [done|]. cbn.
  destruct (truthy _); cbn; by destruct (rulesProvider _ _).
Qed.

(** X13. When the rule provider fails on a miss, the rule resolver fails
    with the same error and stores nothing: the cache is unchanged. *)
Theorem fetchValidatorRules_provider_fails (e : Error) (w : World) :
  KEY_VALIDATOR_RULES ∉ unreadable w ->
  truthy (default VUndefined (cache w !! KEY_VALIDATOR_RULES)) = false ->
  rulesProvider (trace w) None = Throw e ->
  fetchValidatorRules_ rulesProvider w =
    (Throw e, with_trace (trace w ++ [ERulesFetch None]) w).
Proof.
  intros Hread Hmiss He. rewrite fetchValidatorRules_run by exact Hread.
  cbn zeta. by rewrite Hmiss, He.
Qed.

(** X14. What a miss stores is what the next call hands back to the
    provider: after a miss that fetched a rule set whose raw form is truthy,
    the next call is a hit, calls the provider with exactly that raw form
    and leaves the cache as it is. *)
Theorem fetchValidatorRules_round_trip (r : RuleSet) (w : World) :
  KEY_VALIDATOR_RULES ∉ unreadable w ->
  truthy (default VUndefined (cache w !! KEY_VALIDATOR_RULES)) = false ->
  rulesProvider (trace w) None = Ok r ->
  truthy (raw r) = true ->
  let w1 := snd (fetchValidatorRules_ rulesProvider w) in
  fetchValidatorRules_ rulesProvider w1 =
    (rulesProvider (trace w1) (Some (raw r)),
     with_trace (trace w1 ++ [ERulesFetch (Some (raw r))]) w1).
Proof.
  intros Hread Hmiss Hr Hraw. cbn zeta.
  rewrite (fetchValidatorRules_run w) by exact Hread.
  cbn zeta. rewrite Hmiss, Hr. cbn [snd].
  rewrite fetchValidatorRules_run by exact Hread.
  cbn zeta. cbn [cache with_cache with_trace].
  rewrite lookup_insert_eq. cbn. by rewrite Hraw.
Qed.

(** X15. A rule set without a raw form is never served from the cache: when
    the raw form stored by a miss is falsy, the next call is a miss again
    and fetches the rules in full, with a provider call without argument. *)
Theorem fetchValidatorRules_falsy_raw (r : RuleSet) (w : World) :
  KEY_VALIDATOR_RULES ∉ unreadable w ->
  truthy (default VUndefined (cache w !! KEY_VALIDATOR_RULES)) = false ->
  rulesProvider (trace w) None = Ok r ->
  truthy (raw r) = false ->
  let w1 := snd (fetchValidatorRules_ rulesProvider w) in
  cache w1 !! KEY_VALIDATOR_RULES = Some (raw r) /\
  trace (snd (fetchValidatorRules_ rulesProvider w1)) =
    (trace w ++ [ERulesFetch None; ERulesFetch None])%list.
Proof.
  intros Hread Hmiss Hr Hraw. cbn zeta.
  rewrite (fetchValidatorRules_run w) by exact Hread.
  cbn zeta. rewrite Hmiss, Hr. cbn [snd].
  split; [cbn; apply lookup_insert_eq|].
  rewrite fetchValidatorRules_run by exact Hread.
  cbn zeta. cbn [cache with_cache with_trace].
  rewrite lookup_insert_eq. cbn. rewrite Hraw.
  destruct (rulesProvider (trace w ++ _) None); cbn; by rewrite <- List.app_assoc.
Qed.

(** X16. On a readable cache the rule resolver calls the rule provider
    exactly once per call, on a hit as on a miss, and makes no other call
    to the outside: the one provider call is all it adds to the trace. *)
Theorem fetchValidatorRules_one_provider_call (w : World) :
  KEY_VALIDATOR_RULES ∉ unreadable w ->
  let w1 := snd (fetchValidatorRules_ rulesProvider w) in
  (exists args, trace w1 = (trace w ++ [ERulesFetch args])%list) /\
  rules_calls (trace w1) = S (rules_calls (trace w)) /\
  network_calls (trace w1) = S (network_calls (trace w)).
Proof.
  intros Hread. cbn zeta.
  rewrite fetchValidatorRules_run by exact Hread. cbn zeta.
  set (cached := default VUndefined (cache w !! KEY_VALIDATOR_RULES)).
  assert (Htrace : exists args,
    trace (snd (if truthy cached
      then (rulesProvider (trace w) (Some cached),
            with_trace (trace w ++ [ERulesFetch (if truthy cached then Some cached else None)]) w)
      else match rulesProvider (trace w) None with
           | Ok r => (Ok r, with_cache (<[KEY_VALIDATOR_RULES := raw r]> (cache w))
                       (with_trace (trace w ++ [ERulesFetch (if truthy cached then Some cached else None)]) w))
           | Throw e => (Throw e,
                       with_trace (trace w ++ [ERulesFetch (if truthy cached then Some cached else None)]) w)
           end)) = (trace w ++ [ERulesFetch args])%list).
  { destruct (truthy cached); [by eexists|].
    destruct (rulesProvider _ None); by eexists. }
  destruct Htrace as [args Htrace]. rewrite Htrace.
  split; [by exists args|]. split.
  - unfold rules_calls. rewrite List.filter_app, length_app. cbn. lia.
  - rewrite network_calls_app. unfold network_calls at 2. cbn. lia.
Qed.

End RuleResolverRuns.

Lemma fetchValidatorRules_provider_fails_witness :
  fetchValidatorRules_ failing_provider sample_world =
  (Throw (Failure "validator rules unavailable"),
   with_trace [ERulesFetch None] sample_world).
Proof.
  apply (fetchValidatorRules_provider_fails failing_provider
           (Failure "validator rules unavailable") sample_world).
  - apply not_elem_of_empty.
  - reflexivity.
  - reflexivity.
Defined.

Lemma fetchValidatorRules_round_trip_witness :
  let w1 := snd (fetchValidatorRules_ sample_provider sample_world) in
  fst (fetchValidatorRules_ sample_provider w1) = Ok sample_rules /\
  cache (snd (fetchValidatorRules_ sample_provider w1)) = cache w1.
Proof.
  cbn zeta.
  rewrite (fetchValidatorRules_round_trip sample_provider sample_rules sample_world).
  - split; reflexivity.
  - apply not_elem_of_empty.
  - reflexivity.
  - reflexivity.
  - reflexivity.
Defined.

Lemma fetchValidatorRules_falsy_raw_witness :
  let w1 := snd (fetchValidatorRules_ rawless_provider sample_world) in
  trace (snd (fetchValidatorRules_ rawless_provider w1)) =
    [ERulesFetch None; ERulesFetch None].
Proof.
  destruct (fetchValidatorRules_falsy_raw rawless_provider
              (mkRuleSet VUndefined ["html"]) sample_world) as (_ & Htrace).
  - apply not_elem_of_empty.
  - reflexivity.
  - reflexivity.
  - reflexivity.
  - exact Htrace.
Defined.

Lemma fetchValidatorRules_one_provider_call_witness :
  rules_calls (trace (snd (fetchValidatorRules_ sample_provider sample_world))) = 1%nat.
Proof.
  destruct (fetchValidatorRules_one_provider_call sample_provider sample_world)
    as (_ & Hcalls & _).
  - apply not_elem_of_empty.
  - exact Hcalls.
Defined.

(** ** Calls to the outside, counted *)

Section Counting.

Variable f : Event -> bool.

Lemma calls_le_weaken {A} (n n' : nat) (m : M A) :
  (n <= n')%nat -> calls_le f n m -> calls_le f n' m.
Proof. intros Hle Hm w. specialize (Hm w). lia. Qed.

Lemma calls_le_same_trace {A} (m : M A) :
  (forall w, trace (snd (m w)) = trace w) -> calls_le f 0 m.
Proof. intros Hm w. rewrite Hm. lia. Qed.

Lemma calls_le_ret {A} (a : A) : calls_le f 0 (ret a).
Proof. by apply calls_le_same_trace. Qed.

Lemma calls_le_throw {A} (e : Error) : calls_le f 0 (@throw A e).
Proof. by apply calls_le_same_trace. Qed.

Lemma calls_le_outcome {A} (o : Outcome A) : calls_le f 0 (fun w => (o, w)).
Proof. by apply calls_le_same_trace. Qed.

Lemma calls_le_clock : calls_le f 0 clock.
Proof. by apply calls_le_same_trace. Qed.

Lemma calls_le_cache_get (key : string) : calls_le f 0 (cache_get key).
Proof.
  apply calls_le_same_trace. intros w. unfold cache_get. by destruct (decide _).
Qed.

Lemma calls_le_cache_set (key : string) (v : Value) : calls_le f 0 (cache_set key v).
Proof. by apply calls_le_same_trace. Qed.

Lemma calls_le_enqueue (p : Pending) :
  calls_le f 0 (fun w => (Ok tt, with_pending (pending w ++ [p]) w)).
Proof. by apply calls_le_same_trace. Qed.

Lemma calls_le_object_assign_new (source : loc) :
  calls_le f 0 (object_assign_new source).
Proof. by apply calls_le_same_trace. Qed.

Lemma calls_le_read_object (l : loc) : calls_le f 0 (read_object l).
Proof.
  apply calls_le_same_trace. intros w. unfold read_object. by destruct (heap w !! l).
Qed.

Lemma calls_le_update_object (l : loc) (g : RuntimeParameters -> RuntimeParameters) :
  calls_le f 0 (update_object l g).
Proof.
  apply calls_le_same_trace. intros w. unfold update_object. by destruct (heap w !! l).
Qed.

Lemma calls_le_emit (e : Event) : calls_le f (Nat.b2n (f e)) (emit e).
Proof.
  intros w. cbn. rewrite List.filter_app, length_app. cbn.
  destruct (f e); cbn; lia.
Qed.

Lemma calls_le_bind {A B} (n1 n2 : nat) (m : M A) (k : A -> M B) :
  calls_le f n1 m -> (forall a, calls_le f n2 (k a)) ->
  calls_le f (n1 + n2) (bind m k).
Proof.
  intros Hm Hk w. unfold bind. specialize (Hm w).
  destruct (m w) as [[a|e] w1]; cbn in *; [|lia].
  specialize (Hk a w1). lia.
Qed.

Lemma calls_le_try_catch {A} (n1 n2 : nat) (m : M A) (h : Error -> M A) :
  calls_le f n1 m -> (forall e, calls_le f n2 (h e)) ->
  calls_le f (n1 + n2) (try_catch m h).
Proof.
  intros Hm Hh w. unfold try_catch. specialize (Hm w).
  destruct (m w) as [[a|e] w1]; cbn in *; [lia|].
  specialize (Hh e w1). lia.
Qed.

Lemma calls_le_if {A} (n1 n2 : nat) (b : bool) (m1 m2 : M A) :
  calls_le f n1 m1 -> calls_le f n2 m2 ->
  calls_le f (Nat.max n1 n2) (if b then m1 else m2).
Proof.
  intros H1 H2. destruct b;
    [apply (calls_le_weaken n1)|apply (calls_le_weaken n2)]; (lia || done).
Qed.

Lemma calls_le_log_warn (config : ConfigArg) (msg : string) :
  calls_le f (Nat.b2n (f (ELogWarn msg))) (log_warn config msg).
Proof.
  destruct config; [apply calls_le_emit|].
  apply (calls_le_weaken 0); [lia|apply calls_le_throw].
Qed.

Lemma calls_le_log_error (config : ConfigArg) (msg : string) (err : option Error) :
  calls_le f (Nat.b2n (f (ELogError msg err))) (log_error config msg err).
Proof.
  destruct config; [apply calls_le_emit|].
  apply (calls_le_weaken 0); [lia|apply calls_le_throw].
Qed.

Lemma calls_le_call_fetch (config : ConfigArg) (url : string) :
  calls_le f (Nat.b2n (f (EFetch url))) (call_fetch config url).
Proof.
  destruct config as [c|s].
  - intros w. pose proof (calls_le_emit (EFetch url) w) as H. cbn in *.
    by destruct (cfg_fetch c (trace w) url).
  - apply (calls_le_weaken 0); [lia|apply calls_le_throw].
Qed.

Lemma calls_le_call_currentVersion (config : ConfigArg)
    (args : option (Value * Value)) :
  calls_le f (Nat.b2n (f (ECurrentVersion args))) (call_currentVersion config args).
Proof.
  destruct config as [c|s].
  - intros w. pose proof (calls_le_emit (ECurrentVersion args) w) as H. cbn in *.
    by destruct (cfg_currentVersion c (trace w) args).
  - apply (calls_le_weaken 0); [lia|apply calls_le_throw].
Qed.

Lemma calls_le_call_rulesProvider rulesProvider (args : option Value) :
  calls_le f (Nat.b2n (f (ERulesFetch args))) (call_rulesProvider rulesProvider args).
Proof.
  intros w. pose proof (calls_le_emit (ERulesFetch args) w) as H.
  unfold call_rulesProvider. cbn in *.
  by destruct (rulesProvider (trace w) args).
Qed.

Lemma calls_le_fetchLatestRuntimeData_call (config : ConfigArg)
    (ampUrlPrefix lts : Value) :
  calls_le f (Nat.b2n (f (ECurrentVersion (Some (ampUrlPrefix, lts)))))
    (fetchLatestRuntimeData_call config ampUrlPrefix lts).
Proof.
  intros w. unfold fetchLatestRuntimeData_call.
  pose proof (calls_le_call_currentVersion config (Some (ampUrlPrefix, lts)) w) as H.
  by destruct (call_currentVersion _ _ w).
Qed.

End Counting.

(** Bounds a leaf by the number its event counts for. *)
Ltac calls_le_leaf lem :=
  eapply calls_le_weaken; [|apply lem]; cbn; apply le_n.

(** Bounds a computation along its binds and branches; the bound is built
    up as the structure is traversed. *)
Ltac calls_le_step :=
  match goal with
  | |- calls_le _ _ (bind _ _) => eapply calls_le_bind; [|intros ?]
  | |- calls_le _ _ (try_catch _ _) => eapply calls_le_try_catch; [|intros ?]
  | |- calls_le _ _ (if _ then _ else _) => eapply calls_le_if
  | |- calls_le _ _ (ret _) => apply calls_le_ret
  | |- calls_le _ _ (throw _) => apply calls_le_throw
  | |- calls_le _ _ clock => apply calls_le_clock
  | |- calls_le _ _ (cache_get _) => apply calls_le_cache_get
  | |- calls_le _ _ (cache_set _ _) => apply calls_le_cache_set
  | |- calls_le _ _ (object_assign_new _) => apply calls_le_object_assign_new
  | |- calls_le _ _ (read_object _) => apply calls_le_read_object
  | |- calls_le _ _ (update_object _ _) => apply calls_le_update_object
  | |- calls_le _ _ (emit _) => calls_le_leaf calls_le_emit
  | |- calls_le _ _ (log_warn _ _) => calls_le_leaf calls_le_log_warn
  | |- calls_le _ _ (log_error _ _ _) => calls_le_leaf calls_le_log_error
  | |- calls_le _ _ (call_fetch _ _) => calls_le_leaf calls_le_call_fetch
  | |- calls_le _ _ (call_currentVersion _ _) =>
      calls_le_leaf calls_le_call_currentVersion
  | |- calls_le _ _ (call_rulesProvider _ _) =>
      calls_le_leaf calls_le_call_rulesProvider
  | |- calls_le _ _ (fetchLatestRuntimeData_call _ _ _) =>
      calls_le_leaf calls_le_fetchLatestRuntimeData_call
  | |- calls_le _ _ (fun w => (Ok tt, with_pending _ w)) => apply calls_le_enqueue
  | |- calls_le _ _ (fun w => (_, w)) => apply calls_le_outcome
  end.

(** Proves a bound [n] given as a number. *)
Ltac calls_le_bound :=
  eapply calls_le_weaken; cycle 1; [repeat calls_le_step|cbn; lia].

Section Bounds.

Variable url_parses : string -> bool.
Variable rulesProvider : list Event -> option Value -> Outcome RuleSet.

Lemma rules_calls_fetchValidatorRules_ :
  calls_le is_rules_call 1 (fetchValidatorRules_ rulesProvider).
Proof. unfold fetchValidatorRules_. calls_le_bound. Qed.

Lemma fetch_calls_fetchValidatorRules_ :
  calls_le is_fetch_call 0 (fetchValidatorRules_ rulesProvider).
Proof. unfold fetchValidatorRules_. calls_le_bound. Qed.

Lemma version_calls_fetchValidatorRules_ :
  calls_le is_version_call 0 (fetchValidatorRules_ rulesProvider).
Proof. unfold fetchValidatorRules_. calls_le_bound. Qed.

Ltac unfold_version_resolver :=
  unfold fetchAmpRuntimeVersion_, fetchLatestRuntimeData_,
    fetchLatestRuntimeData_background, fetchLatestRuntimeData_resume.

Lemma rules_calls_fetchAmpRuntimeVersion_ config ampUrlPrefix lts :
  calls_le is_rules_call 0 (fetchAmpRuntimeVersion_ config ampUrlPrefix lts).
Proof. unfold_version_resolver. calls_le_bound. Qed.

Lemma fetch_calls_fetchAmpRuntimeVersion_ config ampUrlPrefix lts :
  calls_le is_fetch_call 0 (fetchAmpRuntimeVersion_ config ampUrlPrefix lts).
Proof. unfold_version_resolver. calls_le_bound. Qed.

Lemma version_calls_fetchAmpRuntimeVersion_ config ampUrlPrefix lts :
  calls_le is_version_call 1 (fetchAmpRuntimeVersion_ config ampUrlPrefix lts).
Proof. unfold_version_resolver. calls_le_bound. Qed.

End Bounds.

Section StyleBounds.

Variable url_parses : string -> bool.

Lemma fetch_calls_downloadAmpRuntimeStyles_ config url :
  calls_le is_fetch_call 1 (downloadAmpRuntimeStyles_ config url).
Proof. unfold downloadAmpRuntimeStyles_. calls_le_bound. Qed.

Lemma version_calls_downloadAmpRuntimeStyles_ config url :
  calls_le is_version_call 0 (downloadAmpRuntimeStyles_ config url).
Proof. unfold downloadAmpRuntimeStyles_. calls_le_bound. Qed.

Lemma rules_calls_downloadAmpRuntimeStyles_ config url :
  calls_le is_rules_call 0 (downloadAmpRuntimeStyles_ config url).
Proof. unfold downloadAmpRuntimeStyles_. calls_le_bound. Qed.

(** With a string in the place of the configuration the function adds
    nothing to the trace: every capability it would use is missing. *)
Lemma fetchAmpRuntimeStyles_string_silent (fuel : nat) (s : string)
    (ampUrlPrefix ampRuntimeVersion : Value) (w : World) :
  trace (snd (fetchAmpRuntimeStyles_fuel url_parses fuel (CfgString s)
                ampUrlPrefix ampRuntimeVersion w)) = trace w.
Proof.
  destruct fuel as [|n]; [reflexivity|].
  rewrite fetchAmpRuntimeStyles_fuel_string.
  cbn [fetchAmpRuntimeStyles_fuel].
  unfold downloadAmpRuntimeStyles_, log_warn, log_error, call_fetch,
    call_currentVersion.
  unfold_monad.
  destruct (truthy ampUrlPrefix && negb (_isAbsoluteUrl url_parses ampUrlPrefix));
    cbn; [reflexivity|].
  destruct (decide _); cbn; [reflexivity|].
  destruct (truthy (default VUndefined _)) eqn:E; cbn; [|reflexivity].
  by rewrite E.
Qed.

Ltac styles_step f1 :=
  first
    [ calls_le_step
    | apply fetch_calls_downloadAmpRuntimeStyles_
    | apply version_calls_downloadAmpRuntimeStyles_
    | apply rules_calls_downloadAmpRuntimeStyles_
    | apply calls_le_same_trace; intros ?;
      apply (fetchAmpRuntimeStyles_string_silent f1) ].

Lemma fetch_calls_fetchAmpRuntimeStyles_fuel f1 config ampUrlPrefix ampRuntimeVersion :
  calls_le is_fetch_call 1
    (fetchAmpRuntimeStyles_fuel url_parses (S f1) config
       ampUrlPrefix ampRuntimeVersion).
Proof.
  cbn [fetchAmpRuntimeStyles_fuel].
  eapply calls_le_weaken; cycle 1; [repeat styles_step f1|cbn; lia].
Qed.

Lemma fetch_calls_fetchAmpRuntimeStyles_ config ampUrlPrefix ampRuntimeVersion :
  calls_le is_fetch_call 1
    (fetchAmpRuntimeStyles_ url_parses config ampUrlPrefix ampRuntimeVersion).
Proof. apply fetch_calls_fetchAmpRuntimeStyles_fuel. Qed.

Lemma version_calls_fetchAmpRuntimeStyles_fuel f1 config ampUrlPrefix ampRuntimeVersion :
  calls_le is_version_call 2
    (fetchAmpRuntimeStyles_fuel url_parses (S f1) config
       ampUrlPrefix ampRuntimeVersion).
Proof.
  cbn [fetchAmpRuntimeStyles_fuel].
  eapply calls_le_weaken; cycle 1; [repeat styles_step f1|cbn; lia].
Qed.

Lemma version_calls_fetchAmpRuntimeStyles_ config ampUrlPrefix ampRuntimeVersion :
  calls_le is_version_call 2
    (fetchAmpRuntimeStyles_ url_parses config ampUrlPrefix ampRuntimeVersion).
Proof. apply version_calls_fetchAmpRuntimeStyles_fuel. Qed.

Lemma rules_calls_fetchAmpRuntimeStyles_fuel f1 config ampUrlPrefix ampRuntimeVersion :
  calls_le is_rules_call 0
    (fetchAmpRuntimeStyles_fuel url_parses (S f1) config
       ampUrlPrefix ampRuntimeVersion).
Proof.
  cbn [fetchAmpRuntimeStyles_fuel].
  eapply calls_le_weaken; cycle 1; [repeat styles_step f1|cbn; lia].
Qed.

Lemma rules_calls_fetchAmpRuntimeStyles_ config ampUrlPrefix ampRuntimeVersion :
  calls_le is_rules_call 0
    (fetchAmpRuntimeStyles_ url_parses config ampUrlPrefix ampRuntimeVersion).
Proof. apply rules_calls_fetchAmpRuntimeStyles_fuel. Qed.

End StyleBounds.

(** ** The orchestrator, beyond the claims *)

Section OrchestratorBounds.

Variable url_parses : string -> bool.
Variable rulesProvider : list Event -> option Value -> Outcome RuleSet.
Variable config : Config.

Ltac orchestrator_step :=
  first
    [ calls_le_step
    | apply rules_calls_fetchValidatorRules_
    | apply fetch_calls_fetchValidatorRules_
    | apply version_calls_fetchValidatorRules_
    | apply rules_calls_fetchAmpRuntimeVersion_
    | apply fetch_calls_fetchAmpRuntimeVersion_
    | apply version_calls_fetchAmpRuntimeVersion_
    | apply rules_calls_fetchAmpRuntimeStyles_
    | apply fetch_calls_fetchAmpRuntimeStyles_
    | apply version_calls_fetchAmpRuntimeStyles_ ].

Ltac orchestrator_bound :=
  unfold fetchRuntimeParameters; destruct (cfg_validatorRules config);
  (eapply calls_le_weaken; cycle 1; [repeat orchestrator_step|cbn; lia]).

Lemma rules_calls_fetchRuntimeParameters custom :
  calls_le is_rules_call 1
    (fetchRuntimeParameters url_parses rulesProvider config custom).
Proof. orchestrator_bound. Qed.

Lemma fetch_calls_fetchRuntimeParameters custom :
  calls_le is_fetch_call 1
    (fetchRuntimeParameters url_parses rulesProvider config custom).
Proof. orchestrator_bound. Qed.

Lemma version_calls_fetchRuntimeParameters custom :
  calls_le is_version_call 3
    (fetchRuntimeParameters url_parses rulesProvider config custom).
Proof. orchestrator_bound. Qed.

(** X17. One call of [fetchRuntimeParameters] makes at most one call to the
    rule provider, at most one download and at most three calls to the
    version source (one by the version resolver, two by the style resolver:
    for a relative prefix and for its fallback), whatever the inputs and
    whatever fails on the way. *)
Theorem fetchRuntimeParameters_call_bounds (customRuntimeParameters : loc)
    (w : World) :
  let w' := snd (fetchRuntimeParameters url_parses rulesProvider config
                   customRuntimeParameters w) in
  (rules_calls (trace w') <= rules_calls (trace w) + 1)%nat /\
  (fetch_calls (trace w') <= fetch_calls (trace w) + 1)%nat /\
  (version_calls (trace w') <= version_calls (trace w) + 3)%nat.
Proof.
  cbn zeta. split; [|split].
  - apply rules_calls_fetchRuntimeParameters.
  - apply fetch_calls_fetchRuntimeParameters.
  - apply version_calls_fetchRuntimeParameters.
Qed.

End OrchestratorBounds.

Lemma count_le_extends (f : Event -> bool) (t1 t2 : list Event) :
  (length (List.filter f t1) <= length (List.filter f (t1 ++ t2)))%nat.
Proof. rewrite List.filter_app, length_app. lia. Qed.

Lemma count_log_failure {A} (f : Event -> bool) (msg : string)
    (r : Outcome A * World) :
  (forall err, f (ELogError msg err) = false) ->
  length (List.filter f (trace (log_failure msg r))) =
  length (List.filter f (trace (snd r))).
Proof.
  intros Hlog. destruct r as [[a|e] w1]; cbn; [reflexivity|].
  rewrite List.filter_app, length_app. cbn. rewrite Hlog. cbn. lia.
Qed.

Section RunCounts.

Variable url_parses : string -> bool.
Variable rulesProvider : list Event -> option Value -> Outcome RuleSet.
Variable config : Config.
Variable p : RuntimeParameters.
Variable w : World.

Lemma trace_at_version :
  exists t, trace (world_at_version rulesProvider config p w) = (trace w ++ t)%list.
Proof.
  unfold world_at_version, rules_outcome. cbn [trace with_heap].
  apply (trace_log_failure_extends MSG_RULES (rules_attempt rulesProvider config)
           (world_at_rules config p w)).
  apply stable_rules_attempt.
Qed.

(** The trace of a run starts with the trace it began from. *)
Lemma trace_at_return_extends :
  exists t, trace (world_at_return url_parses rulesProvider config p w) =
            (trace w ++ t)%list.
Proof.
  destruct trace_at_version as [t1 H1].
  destruct (trace_at_styles rulesProvider config p w) as [t2 H2].
  destruct (trace_at_return url_parses rulesProvider config p w) as [t3 H3].
  exists ((t1 ++ t2) ++ t3)%list. rewrite H3, H2, H1.
  by rewrite <- !List.app_assoc.
Qed.

Variable f : Event -> bool.
Hypothesis f_not_log : forall msg err, f (ELogError msg err) = false.

(** The calls of a run are those of its three sub-resolutions. *)
Lemma count_at_return (n1 n2 n3 : nat) :
  calls_le f n1 (rules_attempt rulesProvider config) ->
  calls_le f n2 (version_attempt config (object_after_rules rulesProvider config p w)) ->
  calls_le f n3 (styles_attempt url_parses config
                   (object_after_rules rulesProvider config p w)
                   (ampRuntimeVersion (object_after_version rulesProvider config p w))) ->
  (length (List.filter f (trace (world_at_return url_parses rulesProvider config p w)))
   <= length (List.filter f (trace w)) + (n1 + n2 + n3))%nat.
Proof.
  intros H1 H2 H3.
  pose proof (H1 (world_at_rules config p w)) as H1'.
  pose proof (H2 (world_at_version rulesProvider config p w)) as H2'.
  pose proof (H3 (world_at_styles rulesProvider config p w)) as H3'.
  change (rules_attempt rulesProvider config (world_at_rules config p w))
    with (rules_outcome rulesProvider config p w) in H1'.
  change (version_attempt config _ (world_at_version rulesProvider config p w))
    with (version_outcome rulesProvider config p w) in H2'.
  change (styles_attempt url_parses config _ _ (world_at_styles rulesProvider config p w))
    with (styles_outcome url_parses rulesProvider config p w) in H3'.
  assert (E0 : trace (world_at_rules config p w) = trace w) by reflexivity.
  assert (E1 : length (List.filter f (trace (world_at_version rulesProvider config p w)))
             = length (List.filter f (trace (snd (rules_outcome rulesProvider config p w))))).
  { unfold world_at_version. cbn [trace with_heap].
    apply count_log_failure, f_not_log. }
  assert (E2 : length (List.filter f (trace (world_at_styles rulesProvider config p w)))
             = length (List.filter f (trace (snd (version_outcome rulesProvider config p w))))).
  { unfold world_at_styles. cbn [trace with_heap].
    apply count_log_failure, f_not_log. }
  assert (E3 : length (List.filter f (trace (world_at_return url_parses rulesProvider config p w)))
             = length (List.filter f (trace (snd (styles_outcome url_parses rulesProvider config p w))))).
  { unfold world_at_return. cbn [trace with_heap].
    apply count_log_failure, f_not_log. }
  rewrite E0 in H1'. lia.
Qed.

End RunCounts.

(** A flag that defaults to [false] is truthy or [false] itself. *)
Lemma js_or_false_default (x : Value) :
  truthy (js_or x (VBool false)) = false -> js_or x (VBool false) = VBool false.
Proof.
  unfold js_or. destruct (truthy x) eqn:E; [congruence|reflexivity].
Qed.

(** X18. The three flags of the result are settled from the caller's
    parameters first, the configuration second, and are [false] otherwise,
    so that a flag of the result is never [undefined]; the prefix is the
    caller's.  Nothing that happens later in the call, success or failure,
    changes them. *)
Theorem fetchRuntimeParameters_flags (url_parses : string -> bool)
    (rulesProvider : list Event -> option Value -> Outcome RuleSet)
    (config : Config) (custom : loc) (p : RuntimeParameters) (w : World) :
  heap w !! custom = Some p ->
  exists l rp w',
    fetchRuntimeParameters url_parses rulesProvider config custom w = (Ok l, w') /\
    heap w' !! l = Some rp /\
    verbose rp = js_or (js_or (verbose p) (cfg_verbose config)) (VBool false) /\
    lts rp = js_or (js_or (lts p) (cfg_lts config)) (VBool false) /\
    rtv rp = js_or (js_or (rtv p) (cfg_rtv config)) (VBool false) /\
    ampUrlPrefix rp = ampUrlPrefix p /\
    (truthy (verbose rp) = false -> verbose rp = VBool false) /\
    (truthy (lts rp) = false -> lts rp = VBool false) /\
    (truthy (rtv rp) = false -> rtv rp = VBool false).
Proof.
  intros Hcustom.
  exists (new_object w), (object_at_return url_parses rulesProvider config p w),
    (world_at_return url_parses rulesProvider config p w).
  split; [by apply fetchRuntimeParameters_run|].
  split; [rewrite heap_at_return; apply lookup_insert_eq|].
  assert (Hfields :
    verbose (object_at_return url_parses rulesProvider config p w) =
      js_or (js_or (verbose p) (cfg_verbose config)) (VBool false) /\
    lts (object_at_return url_parses rulesProvider config p w) =
      js_or (js_or (lts p) (cfg_lts config)) (VBool false) /\
    rtv (object_at_return url_parses rulesProvider config p w) =
      js_or (js_or (rtv p) (cfg_rtv config)) (VBool false) /\
    ampUrlPrefix (object_at_return url_parses rulesProvider config p w) =
      ampUrlPrefix p).
  { unfold object_at_return, object_after_version, object_after_rules.
    destruct (fst (styles_outcome _ _ _ _ _)), (fst (version_outcome _ _ _ _)),
      (fst (rules_outcome _ _ _ _)); by repeat split. }
  destruct Hfields as (Hv & Hl & Hr & Hp).
  rewrite Hv, Hl, Hr, Hp.
  split; [reflexivity|]. split; [reflexivity|]. split; [reflexivity|].
  split; [reflexivity|].
  split; [|split]; apply js_or_false_default.
Qed.

Lemma fetchRuntimeParameters_flags_witness :
  exists l rp w',
    fetchRuntimeParameters sample_url_parses sample_provider config_with_rules
      0%nat given_world = (Ok l, w') /\
    heap w' !! l = Some rp /\
    verbose rp = VBool true /\ lts rp = VBool true /\ rtv rp = VBool false.
Proof.
  destruct (fetchRuntimeParameters_flags sample_url_parses sample_provider
              config_with_rules 0%nat
              (mkParams VUndefined (VBool true) VUndefined (Some caller_rules)
                 VUndefined (VString "001") (VString "a{}")) given_world)
    as (l & rp & w' & Hrun & Hobj & Hv & Hl & Hr & _).
  - reflexivity.
  - exists l, rp, w'. by repeat split.
Defined.

(** X19. Rules given in the configuration win: the result holds them even
    when the caller's parameters carry other rules, and the rule provider is
    not called. *)
Theorem fetchRuntimeParameters_config_rules (url_parses : string -> bool)
    (rulesProvider : list Event -> option Value -> Outcome RuleSet)
    (config : Config) (custom : loc) (p : RuntimeParameters) (r : RuleSet)
    (w : World) :
  heap w !! custom = Some p ->
  cfg_validatorRules config = Some r ->
  exists l rp w',
    fetchRuntimeParameters url_parses rulesProvider config custom w = (Ok l, w') /\
    heap w' !! l = Some rp /\
    validatorRules rp = Some r /\
    rules_calls (trace w') = rules_calls (trace w).
Proof.
  intros Hcustom Hcfg.
  exists (new_object w), (object_at_return url_parses rulesProvider config p w),
    (world_at_return url_parses rulesProvider config p w).
  split; [by apply fetchRuntimeParameters_run|].
  split; [rewrite heap_at_return; apply lookup_insert_eq|].
  split.
  - rewrite validatorRules_at_return. unfold rules_outcome, rules_attempt.
    by rewrite Hcfg.
  - apply Nat.le_antisymm.
    + pose proof (count_at_return url_parses rulesProvider config p w
                    is_rules_call (fun _ _ => eq_refl) 0 0 0) as Hle.
      unfold rules_calls. rewrite Nat.add_0_r in Hle. apply Hle.
      * unfold rules_attempt. rewrite Hcfg. apply calls_le_ret.
      * unfold version_attempt. destruct (truthy (ampRuntimeVersion _));
          [apply calls_le_ret|apply rules_calls_fetchAmpRuntimeVersion_].
      * unfold styles_attempt. destruct (truthy (ampRuntimeStyles _));
          [apply calls_le_ret|apply rules_calls_fetchAmpRuntimeStyles_].
    + destruct (trace_at_return_extends url_parses rulesProvider config p w)
        as [t ->].
      apply count_le_extends.
Qed.

Lemma fetchRuntimeParameters_config_rules_witness :
  exists l rp w',
    fetchRuntimeParameters sample_url_parses failing_provider config_with_rules
      0%nat given_world = (Ok l, w') /\
    heap w' !! l = Some rp /\
    validatorRules rp = Some sample_rules.
Proof.
  destruct (fetchRuntimeParameters_config_rules sample_url_parses failing_provider
              config_with_rules 0%nat
              (mkParams VUndefined (VBool true) VUndefined (Some caller_rules)
                 VUndefined (VString "001") (VString "a{}")) sample_rules given_world)
    as (l & rp & w' & Hrun & Hobj & Hrules & _).
  - reflexivity.
  - reflexivity.
  - exists l, rp, w'. by repeat split.
Defined.

(** X20. When the configuration gives the rules and the caller gives a
    truthy version and truthy styles, nothing is fetched: the result holds
    the three given values, and the call leaves the cache, the trace of
    outside calls and the pending refreshes exactly as they were. *)
Theorem fetchRuntimeParameters_nothing_to_fetch (url_parses : string -> bool)
    (rulesProvider : list Event -> option Value -> Outcome RuleSet)
    (config : Config) (custom : loc) (p : RuntimeParameters) (r : RuleSet)
    (w : World) :
  heap w !! custom = Some p ->
  cfg_validatorRules config = Some r ->
  truthy (ampRuntimeVersion p) = true ->
  truthy (ampRuntimeStyles p) = true ->
  exists l rp w',
    fetchRuntimeParameters url_parses rulesProvider config custom w = (Ok l, w') /\
    heap w' !! l = Some rp /\
    validatorRules rp = Some r /\
    ampRuntimeVersion rp = ampRuntimeVersion p /\
    ampRuntimeStyles rp = ampRuntimeStyles p /\
    cache w' = cache w /\ trace w' = trace w /\ pending w' = pending w.
Proof.
  intros Hcustom Hcfg Hversion Hstyles.
  exists (new_object w), (object_at_return url_parses rulesProvider config p w),
    (world_at_return url_parses rulesProvider config p w).
  split; [by apply fetchRuntimeParameters_run|].
  split; [rewrite heap_at_return; apply lookup_insert_eq|].
  assert (H1 : rules_outcome rulesProvider config p w =
               (Ok r, world_at_rules config p w)).
  { unfold rules_outcome, rules_attempt. by rewrite Hcfg. }
  assert (H2 : version_outcome rulesProvider config p w =
               (Ok (ampRuntimeVersion p), world_at_version rulesProvider config p w)).
  { unfold version_outcome, version_attempt, object_after_rules.
    rewrite H1. cbn. by rewrite Hversion. }
  assert (H3 : styles_outcome url_parses rulesProvider config p w =
               (Ok (ampRuntimeStyles p), world_at_styles rulesProvider config p w)).
  { unfold styles_outcome, styles_attempt, object_after_rules.
    rewrite H1. cbn. by rewrite Hstyles. }
  rewrite validatorRules_at_return, ampRuntimeVersion_at_return,
    ampRuntimeStyles_at_return.
  unfold world_at_return. rewrite H3. unfold world_at_styles. rewrite H2.
  unfold world_at_version. rewrite H1. by repeat split.
Qed.

Lemma fetchRuntimeParameters_nothing_to_fetch_witness :
  exists l rp w',
    fetchRuntimeParameters sample_url_parses failing_provider config_with_rules
      0%nat given_world = (Ok l, w') /\
    heap w' !! l = Some rp /\
    ampRuntimeStyles rp = VString "a{}" /\ trace w' = [].
Proof.
  destruct (fetchRuntimeParameters_nothing_to_fetch sample_url_parses
              failing_provider config_with_rules 0%nat
              (mkParams VUndefined (VBool true) VUndefined (Some caller_rules)
                 VUndefined (VString "001") (VString "a{}")) sample_rules given_world)
    as (l & rp & w' & Hrun & Hobj & _ & _ & Hstyles & _ & Htrace & _).
  - reflexivity.
  - reflexivity.
  - reflexivity.
  - reflexivity.
  - exists l, rp, w'. by repeat split.
Defined.

(** X21. Styles given by the caller are used as they are and nothing is
    downloaded: whatever the rule resolver and the version resolver do,
    [config.fetch] is not called. *)
Theorem fetchRuntimeParameters_given_styles (url_parses : string -> bool)
    (rulesProvider : list Event -> option Value -> Outcome RuleSet)
    (config : Config) (custom : loc) (p : RuntimeParameters) (w : World) :
  heap w !! custom = Some p ->
  truthy (ampRuntimeStyles p) = true ->
  exists l rp w',
    fetchRuntimeParameters url_parses rulesProvider config custom w = (Ok l, w') /\
    heap w' !! l = Some rp /\
    ampRuntimeStyles rp = ampRuntimeStyles p /\
    fetch_calls (trace w') = fetch_calls (trace w).
Proof.
  intros Hcustom Hstyles.
  exists (new_object w), (object_at_return url_parses rulesProvider config p w),
    (world_at_return url_parses rulesProvider config p w).
  split; [by apply fetchRuntimeParameters_run|].
  split; [rewrite heap_at_return; apply lookup_insert_eq|].
  assert (Hgiven : ampRuntimeStyles (object_after_rules rulesProvider config p w)
                   = ampRuntimeStyles p).
  { unfold object_after_rules. by destruct (fst (rules_outcome _ _ _ _)). }
  split.
  - rewrite ampRuntimeStyles_at_return. unfold styles_outcome, styles_attempt.
    by rewrite Hgiven, Hstyles.
  - apply Nat.le_antisymm.
    + pose proof (count_at_return url_parses rulesProvider config p w
                    is_fetch_call (fun _ _ => eq_refl) 0 0 0) as Hle.
      unfold fetch_calls. rewrite Nat.add_0_r in Hle. apply Hle.
      * unfold rules_attempt. destruct (cfg_validatorRules config);
          [apply calls_le_ret|apply fetch_calls_fetchValidatorRules_].
      * unfold version_attempt. destruct (truthy (ampRuntimeVersion _));
          [apply calls_le_ret|apply fetch_calls_fetchAmpRuntimeVersion_].
      * unfold styles_attempt. rewrite Hgiven, Hstyles. apply calls_le_ret.
    + destruct (trace_at_return_extends url_parses rulesProvider config p w)
        as [t ->].
      apply count_le_extends.
Qed.

Lemma fetchRuntimeParameters_given_styles_witness :
  exists l rp w',
    fetchRuntimeParameters sample_url_parses sample_provider sample_config
      0%nat given_world = (Ok l, w') /\
    heap w' !! l = Some rp /\
    ampRuntimeStyles rp = VString "a{}" /\
    fetch_calls (trace w') = 0%nat.
Proof.
  destruct (fetchRuntimeParameters_given_styles sample_url_parses sample_provider
              sample_config 0%nat
              (mkParams VUndefined (VBool true) VUndefined (Some caller_rules)
                 VUndefined (VString "001") (VString "a{}")) given_world)
    as (l & rp & w' & Hrun & Hobj & Hstyles & Hcalls).
  - reflexivity.
  - reflexivity.
  - exists l, rp, w'. by repeat split.
Defined.

(** ** The cache only grows *)

Lemma keeps_cache_same {A} (m : M A) :
  (forall w, cache (snd (m w)) = cache w) -> keeps_cache m.
Proof. intros Hm w. by rewrite Hm. Qed.

Lemma keeps_cache_cache_set (key : string) (v : Value) :
  keeps_cache (cache_set key v).
Proof. intros w. cbn. rewrite dom_insert. set_solver. Qed.

Lemma keeps_cache_cache_get (key : string) : keeps_cache (cache_get key).
Proof.
  apply keeps_cache_same. intros w. unfold cache_get. by destruct (decide _).
Qed.

Lemma keeps_cache_bind {A B} (m : M A) (k : A -> M B) :
  keeps_cache m -> (forall a, keeps_cache (k a)) -> keeps_cache (bind m k).
Proof.
  intros Hm Hk w. unfold bind. specialize (Hm w).
  destruct (m w) as [[a|e] w1]; cbn in *; [|exact Hm].
  specialize (Hk a w1). set_solver.
Qed.

Lemma keeps_cache_try_catch {A} (m : M A) (h : Error -> M A) :
  keeps_cache m -> (forall e, keeps_cache (h e)) -> keeps_cache (try_catch m h).
Proof.
  intros Hm Hh w. unfold try_catch. specialize (Hm w).
  destruct (m w) as [[a|e] w1]; cbn in *; [exact Hm|].
  specialize (Hh e w1). set_solver.
Qed.

Lemma keeps_cache_log_warn config msg : keeps_cache (log_warn config msg).
Proof. apply keeps_cache_same. intros w. by destruct config. Qed.

Lemma keeps_cache_log_error config msg err : keeps_cache (log_error config msg err).
Proof. apply keeps_cache_same. intros w. by destruct config. Qed.

Lemma keeps_cache_call_fetch config url : keeps_cache (call_fetch config url).
Proof.
  apply keeps_cache_same. intros w. destruct config as [c|s]; [|reflexivity].
  cbn. by destruct (cfg_fetch c (trace w) url).
Qed.

Lemma keeps_cache_call_currentVersion config args :
  keeps_cache (call_currentVersion config args).
Proof.
  apply keeps_cache_same. intros w. destruct config as [c|s]; [|reflexivity].
  cbn. by destruct (cfg_currentVersion c (trace w) args).
Qed.

Lemma keeps_cache_call_rulesProvider rulesProvider args :
  keeps_cache (call_rulesProvider rulesProvider args).
Proof.
  apply keeps_cache_same. intros w. unfold call_rulesProvider. cbn.
  by destruct (rulesProvider (trace w) args).
Qed.

Lemma keeps_cache_fetchLatestRuntimeData_call config ampUrlPrefix lts :
  keeps_cache (fetchLatestRuntimeData_call config ampUrlPrefix lts).
Proof.
  intros w. unfold fetchLatestRuntimeData_call.
  pose proof (keeps_cache_call_currentVersion config (Some (ampUrlPrefix, lts)) w) as H.
  by destruct (call_currentVersion _ _ w).
Qed.

Lemma keeps_cache_read_object l : keeps_cache (read_object l).
Proof.
  apply keeps_cache_same. intros w. unfold read_object. by destruct (heap w !! l).
Qed.

Lemma keeps_cache_update_object l g : keeps_cache (update_object l g).
Proof.
  apply keeps_cache_same. intros w. unfold update_object. by destruct (heap w !! l).
Qed.

(** Splits a computation along its binds and branches. *)
Ltac keeps_cache_step :=
  match goal with
  | |- keeps_cache (bind _ _) => apply keeps_cache_bind; [|intros ?]
  | |- keeps_cache (try_catch _ _) => apply keeps_cache_try_catch; [|intros ?]
  | |- keeps_cache (if ?b then _ else _) => destruct b
  | |- keeps_cache (match ?o with Some _ => _ | None => _ end) => destruct o
  | |- keeps_cache (cache_set _ _) => apply keeps_cache_cache_set
  | |- keeps_cache (cache_get _) => apply keeps_cache_cache_get
  | |- keeps_cache (log_warn _ _) => apply keeps_cache_log_warn
  | |- keeps_cache (log_error _ _ _) => apply keeps_cache_log_error
  | |- keeps_cache (call_fetch _ _) => apply keeps_cache_call_fetch
  | |- keeps_cache (call_currentVersion _ _) => apply keeps_cache_call_currentVersion
  | |- keeps_cache (call_rulesProvider _ _) => apply keeps_cache_call_rulesProvider
  | |- keeps_cache (fetchLatestRuntimeData_call _ _ _) =>
      apply keeps_cache_fetchLatestRuntimeData_call
  | |- keeps_cache (read_object _) => apply keeps_cache_read_object
  | |- keeps_cache (update_object _ _) => apply keeps_cache_update_object
  | |- keeps_cache _ => by apply keeps_cache_same
  end.

Lemma keeps_cache_fetchValidatorRules_ rulesProvider :
  keeps_cache (fetchValidatorRules_ rulesProvider).
Proof. unfold fetchValidatorRules_. repeat keeps_cache_step. Qed.

Lemma keeps_cache_fetchAmpRuntimeVersion_ config ampUrlPrefix lts :
  keeps_cache (fetchAmpRuntimeVersion_ config ampUrlPrefix lts).
Proof.
  unfold fetchAmpRuntimeVersion_, fetchLatestRuntimeData_,
    fetchLatestRuntimeData_background, fetchLatestRuntimeData_resume.
  repeat keeps_cache_step.
Qed.

Lemma keeps_cache_fetchAmpRuntimeStyles_fuel url_parses fuel :
  forall config ampUrlPrefix ampRuntimeVersion,
    keeps_cache (fetchAmpRuntimeStyles_fuel url_parses fuel config
                   ampUrlPrefix ampRuntimeVersion).
Proof.
  induction fuel as [|fuel IH]; intros config ampUrlPrefix ampRuntimeVersion.
  - by apply keeps_cache_same.
  - cbn [fetchAmpRuntimeStyles_fuel]. unfold downloadAmpRuntimeStyles_.
    repeat first [apply IH|keeps_cache_step].
Qed.

(** X22. The module never removes an entry from the cache: every key that
    is cached before a call of [fetchRuntimeParameters] is still cached
    after it, whatever is fetched and whatever fails. *)
Theorem fetchRuntimeParameters_keeps_cache (url_parses : string -> bool)
    (rulesProvider : list Event -> option Value -> Outcome RuleSet)
    (config : Config) (customRuntimeParameters : loc) (w : World) (key : string) :
  is_Some (cache w !! key) ->
  is_Some (cache (snd (fetchRuntimeParameters url_parses rulesProvider config
                         customRuntimeParameters w)) !! key).
Proof.
  intros Hkey.
  assert (Hkeeps : keeps_cache (fetchRuntimeParameters url_parses rulesProvider
                                  config customRuntimeParameters)).
  { unfold fetchRuntimeParameters.
    repeat first
      [ apply keeps_cache_fetchValidatorRules_
      | apply keeps_cache_fetchAmpRuntimeVersion_
      | apply keeps_cache_fetchAmpRuntimeStyles_fuel
      | keeps_cache_step ]. }
  apply elem_of_dom. apply (Hkeeps w). by apply elem_of_dom.
Qed.

Lemma fetchRuntimeParameters_keeps_cache_witness :
  is_Some (cache (snd (fetchRuntimeParameters sample_url_parses sample_provider
                         sample_config 0%nat stale_world)) !! "-false").
Proof.
  apply (fetchRuntimeParameters_keeps_cache sample_url_parses sample_provider
           sample_config 0%nat stale_world "-false").
  by eexists.
Defined.
